(** * rssutil: a shallow embedding of the feed parser, the update/diff
      engine and the polling scheduler.

    The embedding follows the current revision of [rss.go] (the one that
    ships with the test-suite: [Update] swaps in the items of a second
    feed value [rss2], [Serve] returns an [error] and the package-level
    [Serve] registers a notifier), the model file that declares [RSS],
    [RSSChannel], [RSSItem] and [RFC822], and [logger.go].

    Conventions.
    - A Go [string] or [[]byte] is a [string] of 8-bit characters.
    - A Go [int], [int64] or [time.Duration] is a [Z]; where the code
      multiplies durations the 64-bit wrap-around is written out.
    - A slice is a [list]; every slice the code tests against [nil] is
      built by [append] from [nil], so [nil] is [[]].
    - A nullable pointer [*T] is an [option T].
    - A Go result pair [(v, err)] in which exactly one side is set is a
      sum [T + error].
    - A call either completes or panics ([outcome]) and comes with the
      lines it wrote to the standard error stream and the goroutines it
      started, in order ([effect]). *)

From Stdlib Require Import ZArith List String Ascii Bool Lia.
From Stdlib Require DecimalString.
Import ListNotations.

Open Scope string_scope.
Open Scope Z_scope.

(** ** Go runtime *)

Inductive panic : Type :=
| SliceBounds (hi len : nat)  (* slice bounds out of range [:hi] with length len *)
| IndexRange (i len : nat)    (* index out of range [i] with length len *)
| NilDereference              (* invalid memory address or nil pointer dereference *)
| NonPositiveInterval.        (* time.NewTicker: non-positive interval *)

Inductive outcome (A : Type) : Type :=
| Done (a : A)
| Panicked (p : panic).

Arguments Done {A} a.
Arguments Panicked {A} p.

Definition error := string.
Definition bytes := string.

(** [s[:n]] on a string. *)
Definition slice_to (s : string) (n : nat) : outcome string :=
  if (n <=? String.length s)%nat then Done (substring 0 n s)
  else Panicked (SliceBounds n (String.length s)).

Definition in_cutset (c : ascii) (cutset : string) : bool :=
  existsb (Ascii.eqb c) (list_ascii_of_string cutset).

(** [strings.TrimLeft], [strings.TrimRight] and [strings.Trim] for a
    cutset of single-byte characters. *)
Fixpoint TrimLeft (s cutset : string) : string :=
  match s with
  | EmptyString => EmptyString
  | String c s' => if in_cutset c cutset then TrimLeft s' cutset else s
  end.

Fixpoint TrimRight (s cutset : string) : string :=
  match s with
  | EmptyString => EmptyString
  | String c s' =>
      match TrimRight s' cutset with
      | EmptyString => if in_cutset c cutset then EmptyString else String c EmptyString
      | t => String c t
      end
  end.

Definition Trim (s cutset : string) : string :=
  TrimLeft (TrimRight s cutset) cutset.

Definition first_byte (s : string) : option ascii :=
  match s with
  | EmptyString => None
  | String c _ => Some c
  end.

Fixpoint last_byte (s : string) : option ascii :=
  match s with
  | EmptyString => None
  | String c EmptyString => Some c
  | String _ s' => last_byte s'
  end.

(** ** Instants ([time.Time] without its location) *)

Module Time.
Record t : Type := mk { unixSec : Z; nsec : Z }.

(** [Time.After]: instant comparison. *)
Definition After (a b : t) : bool :=
  (unixSec b <? unixSec a) || ((unixSec a =? unixSec b) && (nsec b <? nsec a)).

Definition Equal (a b : t) : bool :=
  (unixSec a =? unixSec b) && (nsec a =? nsec b).
End Time.

(** [time.Duration]: nanoseconds in an [int64]. *)
Definition Duration := Z.
Definition Nanosecond : Duration := 1.
Definition Second : Duration := 1000000000 * Nanosecond.
Definition Minute : Duration := 60 * Second.

Definition wrap64 (z : Z) : Z := (z + 2 ^ 63) mod 2 ^ 64 - 2 ^ 63.
Definition Duration_mul (a b : Duration) : Duration := wrap64 (a * b).

(** ** The document model *)

Definition RFC822 := Time.t.

(** [func (r RFC822) After(t *RFC822) bool], called through a [*RFC822]
    receiver: the receiver is dereferenced for the call and [*t] inside
    the body. *)
Definition RFC822_After (r t : option RFC822) : outcome bool :=
  match r with
  | None => Panicked NilDereference
  | Some rv =>
      match t with
      | None => Panicked NilDereference
      | Some tv => Done (Time.After rv tv)
      end
  end.

Module RSSCategory.
Record t : Type := mk { Value : string; Domain : string }.
End RSSCategory.

Module RSSCloud.
Record t : Type := mk {
  Domain : string; Port : Z; Path : string;
  RegisterProcedure : string; Protocol : string }.
End RSSCloud.

Module RSSImage.
Record t : Type := mk {
  URL : string; Title : string; Link : string;
  Width : Z; Height : Z; Description : string }.
End RSSImage.

Module RSSTextInput.
Record t : Type := mk {
  Title : string; Description : string; Name : string; Link : string }.
End RSSTextInput.

Module RSSEnclosure.
Record t : Type := mk { URL : string; Length : Z; Type_ : string }.
End RSSEnclosure.

Module RSSSource.
Record t : Type := mk { Value : string; URL : string }.
End RSSSource.

Module RSSItem.
Record t : Type := mk {
  Title : string;
  Link : string;
  Description : string;
  Author : string;
  Categories : list RSSCategory.t;
  Comments : string;
  Enclosure : option RSSEnclosure.t;
  GUID : string;
  PubDate : option RFC822;
  Source : option RSSSource.t }.

Definition with_Title (v : string) (it : t) : t :=
  mk v (Link it) (Description it) (Author it) (Categories it) (Comments it)
     (Enclosure it) (GUID it) (PubDate it) (Source it).

Definition with_Description (v : string) (it : t) : t :=
  mk (Title it) (Link it) v (Author it) (Categories it) (Comments it)
     (Enclosure it) (GUID it) (PubDate it) (Source it).
End RSSItem.

Module RSSChannel.
Record t : Type := mk {
  Title : string;
  Link : string;
  Description : string;
  Language : string;
  Copyright : string;
  ManagingEditor : string;
  WebMaster : string;
  PubDate : option RFC822;
  LastBuildDate : option RFC822;
  Categories : list RSSCategory.t;
  Generator : string;
  Docs : string;
  Cloud : option RSSCloud.t;
  TTL : Z;
  Image : option RSSImage.t;
  Rating : string;
  TextInput : option RSSTextInput.t;
  SkipHours : list Z;
  SkipDays : list Z;
  Items : list RSSItem.t }.

Definition with_Title (v : string) (c : t) : t :=
  mk v (Link c) (Description c) (Language c) (Copyright c) (ManagingEditor c)
     (WebMaster c) (PubDate c) (LastBuildDate c) (Categories c) (Generator c)
     (Docs c) (Cloud c) (TTL c) (Image c) (Rating c) (TextInput c)
     (SkipHours c) (SkipDays c) (Items c).

Definition with_Description (v : string) (c : t) : t :=
  mk (Title c) (Link c) v (Language c) (Copyright c) (ManagingEditor c)
     (WebMaster c) (PubDate c) (LastBuildDate c) (Categories c) (Generator c)
     (Docs c) (Cloud c) (TTL c) (Image c) (Rating c) (TextInput c)
     (SkipHours c) (SkipDays c) (Items c).

Definition with_Copyright (v : string) (c : t) : t :=
  mk (Title c) (Link c) (Description c) (Language c) v (ManagingEditor c)
     (WebMaster c) (PubDate c) (LastBuildDate c) (Categories c) (Generator c)
     (Docs c) (Cloud c) (TTL c) (Image c) (Rating c) (TextInput c)
     (SkipHours c) (SkipDays c) (Items c).

Definition with_Items (v : list RSSItem.t) (c : t) : t :=
  mk (Title c) (Link c) (Description c) (Language c) (Copyright c)
     (ManagingEditor c) (WebMaster c) (PubDate c) (LastBuildDate c)
     (Categories c) (Generator c) (Docs c) (Cloud c) (TTL c) (Image c)
     (Rating c) (TextInput c) (SkipHours c) (SkipDays c) v.
End RSSChannel.

(** A notifier is a Go function value [func([]RSSItem)]; the embedding
    keeps its identity and records each goroutine started on it. *)
Definition RSSUpdateNotifier := nat.

Module RSS.
(** Modelled from the spec: the struct declaration that goes with the
    current [rss.go] is not among the sources; its notifier list
    ([rssUpdateNotifiers], "mutable notifier list" in the data model) is
    added to the fields the model file declares.  The mutex guarding the
    list has no sequential content and is left out. *)
Record t : Type := mk {
  Version : string;
  Channel : RSSChannel.t;
  origin : bytes;
  source : string;
  lastUpdateAt : Time.t;
  rssUpdateNotifiers : list RSSUpdateNotifier }.

Definition with_Channel (v : RSSChannel.t) (r : t) : t :=
  mk (Version r) v (origin r) (source r) (lastUpdateAt r) (rssUpdateNotifiers r).

Definition with_source (v : string) (r : t) : t :=
  mk (Version r) (Channel r) (origin r) v (lastUpdateAt r) (rssUpdateNotifiers r).

Definition with_lastUpdateAt (v : Time.t) (r : t) : t :=
  mk (Version r) (Channel r) (origin r) (source r) v (rssUpdateNotifiers r).

Definition with_rssUpdateNotifiers (v : list RSSUpdateNotifier) (r : t) : t :=
  mk (Version r) (Channel r) (origin r) (source r) (lastUpdateAt r) v.
End RSS.

(** ** Effects and the call monad

    The code writes to the standard error stream and starts goroutines;
    it never reads either back.  A call therefore yields the effects it
    performed, in order, and how it ended. *)

Inductive effect : Type :=
| Stderr (line : string)
| Go (f : RSSUpdateNotifier) (items : list RSSItem.t).

Definition M (A : Type) : Type := (list effect * outcome A)%type.

Definition ret {A : Type} (a : A) : M A := ([], Done a).

Definition bind {A B : Type} (m : M A) (k : A -> M B) : M B :=
  match m with
  | (tr, Done a) => let (tr', r) := k a in ((tr ++ tr')%list, r)
  | (tr, Panicked e) => (tr, Panicked e)
  end.

Definition lift {A : Type} (o : outcome A) : M A := ([], o).

Notation "x <- m ;; k" := (bind m (fun x => k))
  (at level 61, m at next level, right associativity).
Notation "m ;;; k" := (bind m (fun _ => k))
  (at level 61, right associativity).

(** A line handed to a logger; the time and file prefix the logger puts
    in front of it is left out. *)
Definition output (line : string) : M unit := ([Stderr line], Done tt).

(** [go f(items)] *)
Definition go (f : RSSUpdateNotifier) (items : list RSSItem.t) : M unit :=
  ([Go f items], Done tt).

(** ** logger.go *)

(** The levels, numbered by [iota]; [LogLevel] is an [int] variable. *)
Definition Ltrace : Z := 0.
Definition Ldebug : Z := 1.
Definition Linfo : Z := 2.
Definition Lwarning : Z := 3.
Definition Lerror : Z := 4.

(** What the calls of one operation see of the outside world: the log
    level, the clock, the file system, the network and the XML decoder.
    [Get] answers [http.Get]; on success it carries what
    [ioutil.ReadAll(resp.Body)] returns.  [Decode] answers
    [decoder.Decode] on a fresh [RSS]: the exported fields it fills. *)
Record Env : Type := mkEnv {
  LogLevel : Z;
  Now : Time.t;
  ReadFile : string -> bytes + error;
  Get : string -> (bytes + error) + error;
  Decode : bytes -> (string * RSSChannel.t) + error }.

Definition newline : string := String (ascii_of_nat 10) EmptyString.

(** [fmt.Sprintln]: operands separated by spaces, newline appended. *)
Definition Sprintln (v : list string) : string :=
  String.concat " " v ++ newline.

Definition logTrace (env : Env) (v : string) : M unit :=
  if LogLevel env =? Ltrace then output ("[TRACE] " ++ v) else ret tt.

Definition logDebugln (env : Env) (v : list string) : M unit :=
  if LogLevel env <=? Ldebug then output (Sprintln ("[DEBUG] " :: v))
  else ret tt.

Definition logErr (env : Env) (v : error) : M unit :=
  if LogLevel env <=? Lerror then output ("[ERROR] " ++ v) else ret tt.

(** The remaining loggers, each with one operand ([fmt.Sprint] puts no
    space after the tag, a string) or, for the [ln] forms, with a list
    of operands.  The [f] forms need [fmt.Sprintf] and are left out. *)

Definition logTraceln (env : Env) (v : list string) : M unit :=
  if LogLevel env =? Ltrace then output (Sprintln ("[TRACE] " :: v)) else ret tt.

Definition logDebug (env : Env) (v : string) : M unit :=
  if LogLevel env <=? Ldebug then output ("[DEBUG] " ++ v) else ret tt.

Definition logInfo (env : Env) (v : string) : M unit :=
  if LogLevel env <=? Ldebug then output ("[DEBUG] " ++ v) else ret tt.

Definition logInfoln (env : Env) (v : list string) : M unit :=
  if LogLevel env <=? Ldebug then output (Sprintln ("[DEBUG] " :: v)) else ret tt.

Definition logWarn (env : Env) (v : string) : M unit :=
  if LogLevel env <=? Lwarning then output ("[WARN] " ++ v) else ret tt.

Definition logWarnln (env : Env) (v : list string) : M unit :=
  if LogLevel env <=? Lwarning then output (Sprintln ("[WARN] " :: v)) else ret tt.

Definition logErrln (env : Env) (v : list string) : M unit :=
  if LogLevel env <=? Lerror then output (Sprintln ("[ERROR] " :: v)) else ret tt.

(** ** rss.go *)

Definition DefaultTTL : Duration := 20 * Minute.

(** The constant [cutset] of [Feed]: space, tab, newline. *)
Definition cutset : string :=
  String " " (String (ascii_of_nat 9) (String (ascii_of_nat 10) EmptyString)).

Definition trim_item (it : RSSItem.t) : RSSItem.t :=
  let it := RSSItem.with_Title (Trim (RSSItem.Title it) cutset) it in
  RSSItem.with_Description (Trim (RSSItem.Description it) cutset) it.

(** The normalisation pass of [Feed], after a successful decode. *)
Definition trim_channel (ch : RSSChannel.t) : RSSChannel.t :=
  let ch := RSSChannel.with_Title (Trim (RSSChannel.Title ch) cutset) ch in
  let ch := RSSChannel.with_Description (Trim (RSSChannel.Description ch) cutset) ch in
  let ch := RSSChannel.with_Copyright (Trim (RSSChannel.Copyright ch) cutset) ch in
  RSSChannel.with_Items (map trim_item (RSSChannel.Items ch)) ch.

Definition Feed (env : Env) (b : bytes) : M (RSS.t + error) :=
  logTrace env "feed()" ;;;
  match Decode env b with
  | inr err => logErr env err ;;; ret (inr err)
  | inl (version, ch) =>
      ret (inl (RSS.mk version (trim_channel ch) b "" (Now env) []))
  end.

Definition FeedFromFile (env : Env) (filename : string) : M (RSS.t + error) :=
  match ReadFile env filename with
  | inr err => logErr env err ;;; ret (inr err)
  | inl b =>
      r <- Feed env b ;;
      match r with
      | inr err => logErr env err ;;; ret (inr err)
      | inl rss => ret (inl (RSS.with_source filename rss))
      end
  end.

Definition FeedFromURL (env : Env) (url : string) : M (RSS.t + error) :=
  match Get env url with
  | inr err => logErr env err ;;; ret (inr err)
  | inl body =>
      match body with
      | inr err => logErr env err ;;; ret (inr err)
      | inl b =>
          r <- Feed env b ;;
          match r with
          | inr err => logErr env err ;;; ret (inr err)
          | inl rss => ret (inl (RSS.with_source url rss))
          end
      end
  end.

(** The scan of [latestItem] from index 1, [latest] being the item the
    pointer [latestItem] refers to. *)
Fixpoint latestItem_from (latest : RSSItem.t) (items : list RSSItem.t)
  : outcome RSSItem.t :=
  match items with
  | [] => Done latest
  | it :: rest =>
      match RFC822_After (RSSItem.PubDate it) (RSSItem.PubDate latest) with
      | Panicked p => Panicked p
      | Done true => latestItem_from it rest
      | Done false => latestItem_from latest rest
      end
  end.

Definition latestItem (rss : RSS.t) : outcome (option RSSItem.t) :=
  match RSSChannel.Items (RSS.Channel rss) with
  | [] => Done None
  | it0 :: rest =>
      match latestItem_from it0 rest with
      | Panicked p => Panicked p
      | Done l => Done (Some l)
      end
  end.

(** The diff loop of [Update]: [newItems] grows by [append]. *)
Fixpoint newer_items (latest : RSSItem.t) (items newItems : list RSSItem.t)
  : outcome (list RSSItem.t) :=
  match items with
  | [] => Done newItems
  | it :: rest =>
      match RFC822_After (RSSItem.PubDate it) (RSSItem.PubDate latest) with
      | Panicked p => Panicked p
      | Done true => newer_items latest rest (newItems ++ [it])
      | Done false => newer_items latest rest newItems
      end
  end.

(** The source-kind dispatch of [Update]: slice, compare, acquire, and
    log a failure; [inr err] is the early [return nil, err]. *)
Definition reacquire (env : Env) (source : string) : M (RSS.t + error) :=
  prefix <- lift (slice_to source 4) ;;
  if String.eqb prefix "http" then
    r <- FeedFromURL env source ;;
    match r with
    | inr err => logErr env err ;;; ret (inr err)
    | inl rss2 => ret (inl rss2)
    end
  else
    r <- FeedFromFile env source ;;
    match r with
    | inr err => logErr env err ;;; ret (inr err)
    | inl rss2 => ret (inl rss2)
    end.

(** The two assignments of [Update] after a successful acquisition:
    [rss.Channel.Items = rss2.Channel.Items] and
    [rss.lastUpdateAt = time.Now()]. *)
Definition replace_items (env : Env) (rss rss2 : RSS.t) : RSS.t :=
  let rss :=
    RSS.with_Channel
      (RSSChannel.with_Items (RSSChannel.Items (RSS.Channel rss2))
                             (RSS.Channel rss)) rss in
  RSS.with_lastUpdateAt (Now env) rss.

(** [func (rss *RSS) Update() (newItems []RSSItem, err error)]: the feed
    after the call comes with the result. *)
Definition Update (env : Env) (rss : RSS.t) : M (RSS.t * (list RSSItem.t + error)) :=
  logTrace env "rss.Update()" ;;;
  latest <- lift (latestItem rss) ;;
  if String.eqb (RSS.source rss) "" then ret (rss, inr "empty rss.source")
  else
    r <- reacquire env (RSS.source rss) ;;
    match r with
    | inr err => ret (rss, inr err)
    | inl rss2 =>
        let rss := replace_items env rss rss2 in
        match latest with
        | None => ret (rss, inl [])
        | Some l =>
            newItems <- lift (newer_items l (RSSChannel.Items (RSS.Channel rss)) []) ;;
            ret (rss, inl newItems)
        end
    end.

(** The interval [Serve] hands to [time.NewTicker]. *)
Definition Serve_interval (ttl : Duration) (rss : RSS.t) : Duration :=
  if ttl =? 0 then
    if 0 <? RSSChannel.TTL (RSS.Channel rss)
    then Duration_mul (RSSChannel.TTL (RSS.Channel rss)) Minute
    else DefaultTTL
  else ttl.

(** What the [select] of the polling loop receives, in order: a value on
    [stopServe], or a tick, with the world as that tick's update sees it. *)
Inductive event : Type :=
| Stop
| Tick (env : Env).

(** Where the polling loop stands once the events are used up: it has
    returned, or it is still blocked in [select]. *)
Inductive served : Type :=
| Returned (err : option error)
| Waiting.

Fixpoint notify (fs : list RSSUpdateNotifier) (newItems : list RSSItem.t) : M unit :=
  match fs with
  | [] => ret tt
  | f :: fs' => go f newItems ;;; notify fs' newItems
  end.

Fixpoint serveLoop (rss : RSS.t) (events : list event) : M (RSS.t * served) :=
  match events with
  | [] => ret (rss, Waiting)
  | Stop :: _ => ret (rss, Returned None)
  | Tick env :: rest =>
      r <- Update env rss ;;
      match r with
      | (rss', inr err) => logErr env err ;;; ret (rss', Returned (Some err))
      | (rss', inl newItems) =>
          match newItems with
          | [] => ret tt
          | _ :: _ => notify (RSS.rssUpdateNotifiers rss') newItems
          end ;;;
          serveLoop rss' rest
      end
  end.

(** [func (rss *RSS) Serve(ttl time.Duration) error] *)
Definition RSS_Serve (rss : RSS.t) (ttl : Duration) (events : list event)
  : M (RSS.t * served) :=
  let ttl := Serve_interval ttl rss in
  if ttl <=? 0 then lift (Panicked NonPositiveInterval)
  else serveLoop rss events.

Definition RegisterRSSUpdateNotifier (rss : RSS.t) (f : RSSUpdateNotifier) : RSS.t :=
  RSS.with_rssUpdateNotifiers (RSS.rssUpdateNotifiers rss ++ [f]) rss.

(** The initial acquisition of the package-level [Serve]: slice,
    compare, acquire, and log a failure at debug level. *)
Definition Serve_acquire (env : Env) (source : string) : M (RSS.t + error) :=
  prefix <- lift (slice_to source 4) ;;
  if String.eqb prefix "http" then
    r <- FeedFromURL env source ;;
    match r with
    | inr err => logDebugln env ["ERROR:"; err] ;;; ret (inr err)
    | inl rss => ret (inl rss)
    end
  else
    r <- FeedFromFile env source ;;
    match r with
    | inr err => logDebugln env ["ERROR"; err] ;;; ret (inr err)
    | inl rss => ret (inl rss)
    end.

(** [func Serve(source string, f RSSUpdateNotifier, ttl time.Duration) error];
    [env] is the world at the initial acquisition. *)
Definition Serve (env : Env) (source : string) (f : RSSUpdateNotifier)
  (ttl : Duration) (events : list event) : M served :=
  r <- Serve_acquire env source ;;
  match r with
  | inr err => ret (Returned (Some err))
  | inl rss =>
      let rss := RegisterRSSUpdateNotifier rss f in
      match RSSChannel.Items (RSS.Channel rss) with
      | [] => ret tt
      | _ :: _ => go f (RSSChannel.Items (RSS.Channel rss))
      end ;;;
      r <- RSS_Serve rss ttl events ;;
      ret (snd r)
  end.

(** ** rss.go, earlier revision

    The repository also holds an earlier [rss.go], written against the
    same model file.  Its [latestItem] indexes the first item without
    looking at the length, its [Update] assigns the fresh feed to its own
    receiver variable, and its [Serve] takes seconds and prefers any
    non-zero TTL.  The three functions are kept here for comparison; the
    properties below are about the current revision unless they say
    otherwise. *)

Module Earlier.

Definition latestItem (rss : RSS.t) : outcome RSSItem.t :=
  match RSSChannel.Items (RSS.Channel rss) with
  | [] => Panicked (IndexRange 0 0)
  | it0 :: rest => latestItem_from it0 rest
  end.

(** [rss, err = FeedFromURL(rss.source)] rebinds the local pointer: the
    caller's feed is read, never written. *)
Definition Update (env : Env) (rss : RSS.t) : M (RSS.t * (list RSSItem.t + error)) :=
  logTrace env "rss.Update()" ;;;
  latest <- lift (latestItem rss) ;;
  if String.eqb (RSS.source rss) "" then ret (rss, inr "empty rss.source")
  else
    prefix <- lift (slice_to (RSS.source rss) 4) ;;
    r <- (if String.eqb prefix "http" then FeedFromURL env (RSS.source rss)
          else FeedFromFile env (RSS.source rss)) ;;
    match r with
    | inr err => logErr env err ;;; ret (rss, inr err)
    | inl rss2 =>
        newItems <- lift (newer_items latest (RSSChannel.Items (RSS.Channel rss2)) []) ;;
        ret (rss, inl newItems)
    end.

(** The interval of [func (rss RSS) Serve(forceTTL int)]. *)
Definition Serve_interval (forceTTL : Z) (rss : RSS.t) : Duration :=
  let ttl :=
    if negb (RSSChannel.TTL (RSS.Channel rss) =? 0)
    then Duration_mul (RSSChannel.TTL (RSS.Channel rss)) Minute
    else DefaultTTL in
  if negb (forceTTL =? 0) then Duration_mul forceTTL Second else ttl.

End Earlier.

(** ** Go's [time.Parse], for the layout elements of [rfc822layout]

    [time.Parse] belongs to Go's standard library.  The model follows
    [time/format.go] for the reference elements the two layouts of the
    model file are made of ([Mon], [02], [Jan], [2006], [15], [04], [05],
    [MST], [-0700]); a layout character outside these is literal text.  A
    parsed time is kept as its instant; the zone it was written in only
    decides the instant. *)

Module GoTime.

Definition byte (c : ascii) : nat := nat_of_ascii c.

Definition is_digit (c : ascii) : bool :=
  ((48 <=? byte c) && (byte c <=? 57))%nat.

Definition digit (c : ascii) : Z := Z.of_nat (byte c) - 48.

Definition isDigit (s : string) (i : nat) : bool :=
  match String.get i s with
  | Some c => is_digit c
  | None => false
  end.

(** [s[n:]] for [n <= len(s)]. *)
Definition drop (n : nat) (s : string) : string :=
  substring n (String.length s - n) s.

Definition getnum (s : string) (fixed : bool) : option (Z * string) :=
  match s with
  | EmptyString => None
  | String c0 s1 =>
      if is_digit c0 then
        match s1 with
        | String c1 s2 =>
            if is_digit c1 then Some (digit c0 * 10 + digit c1, s2)
            else if fixed then None else Some (digit c0, s1)
        | EmptyString => if fixed then None else Some (digit c0, s1)
        end
      else None
  end.

(** [leadingInt]: the leading digits as a number, and the rest. *)
Fixpoint leadingInt_from (x : Z) (s : string) : option (Z * string) :=
  match s with
  | EmptyString => Some (x, s)
  | String c s' =>
      if is_digit c then
        if 2 ^ 63 / 10 <? x then None
        else
          let x' := x * 10 + digit c in
          if 2 ^ 63 <? x' then None else leadingInt_from x' s'
      else Some (x, s)
  end.

Definition leadingInt (s : string) : option (Z * string) := leadingInt_from 0 s.

(** [atoi] on a string that starts with a digit. *)
Definition atoi (s : string) : option Z :=
  match leadingInt s with
  | Some (x, EmptyString) => Some x
  | _ => None
  end.

(** [match]: equality up to the case of ASCII letters. *)
Definition match_byte (c1 c2 : ascii) : bool :=
  if Ascii.eqb c1 c2 then true
  else
    let l1 := Nat.lor (byte c1) 32 in
    let l2 := Nat.lor (byte c2) 32 in
    ((l1 =? l2) && (97 <=? l1) && (l1 <=? 122))%nat.

Fixpoint match_prefix (name val : string) : option string :=
  match name with
  | EmptyString => Some val
  | String c name' =>
      match val with
      | EmptyString => None
      | String d val' => if match_byte d c then match_prefix name' val' else None
      end
  end.

(** [lookup]: index of the first name that starts [val], and the rest. *)
Fixpoint lookup_from (i : Z) (tab : list string) (val : string) : option (Z * string) :=
  match tab with
  | [] => None
  | v :: tab' =>
      match match_prefix v val with
      | Some rest => Some (i, rest)
      | None => lookup_from (i + 1) tab' val
      end
  end.

Definition lookup (tab : list string) (val : string) : option (Z * string) :=
  lookup_from 0 tab val.

Definition shortDayNames : list string :=
  ["Sun"; "Mon"; "Tue"; "Wed"; "Thu"; "Fri"; "Sat"].

Definition shortMonthNames : list string :=
  ["Jan"; "Feb"; "Mar"; "Apr"; "May"; "Jun";
   "Jul"; "Aug"; "Sep"; "Oct"; "Nov"; "Dec"].

Fixpoint cutspace (s : string) : string :=
  match s with
  | String " " s' => cutspace s'
  | _ => s
  end.

(** [skip]: remove [prefix] from [value]; a space of the layout stands
    for any run of spaces.  [fuel] bounds the walk over [prefix]. *)
Fixpoint skip (fuel : nat) (value prefix : string) : option string :=
  match fuel with
  | O => None
  | S fuel' =>
      match prefix with
      | EmptyString => Some value
      | String " " _ =>
          match value with
          | EmptyString => skip fuel' (cutspace value) (cutspace prefix)
          | String " " _ => skip fuel' (cutspace value) (cutspace prefix)
          | String _ _ => None
          end
      | String c prefix' =>
          match value with
          | EmptyString => None
          | String d value' =>
              if Ascii.eqb d c then skip fuel' value' prefix' else None
          end
      end
  end.

Inductive std : Type :=
| stdWeekDay | stdZeroDay | stdMonth | stdLongYear | stdHour
| stdZeroMinute | stdZeroSecond | stdTZ | stdNumTZ.

Definition startsWithLowerCase (s : string) : bool :=
  match s with
  | EmptyString => false
  | String c _ => ((97 <=? byte c) && (byte c <=? 122))%nat
  end.

(** [nextStdChunk]: the literal text before the next reference element,
    the element, and the layout after it. *)
Fixpoint nextStdChunk (layout : string) : string * option std * string :=
  match layout with
  | EmptyString => (EmptyString, None, EmptyString)
  | String c rest =>
      if prefix "Jan" layout && negb (startsWithLowerCase (drop 3 layout))
      then (EmptyString, Some stdMonth, drop 3 layout)
      else if prefix "Mon" layout && negb (startsWithLowerCase (drop 3 layout))
      then (EmptyString, Some stdWeekDay, drop 3 layout)
      else if prefix "MST" layout then (EmptyString, Some stdTZ, drop 3 layout)
      else if prefix "02" layout then (EmptyString, Some stdZeroDay, drop 2 layout)
      else if prefix "04" layout then (EmptyString, Some stdZeroMinute, drop 2 layout)
      else if prefix "05" layout then (EmptyString, Some stdZeroSecond, drop 2 layout)
      else if prefix "15" layout then (EmptyString, Some stdHour, drop 2 layout)
      else if prefix "2006" layout then (EmptyString, Some stdLongYear, drop 4 layout)
      else if prefix "-0700" layout then (EmptyString, Some stdNumTZ, drop 5 layout)
      else
        let '(p, e, suffix) := nextStdChunk rest in
        (String c p, e, suffix)
  end.

(** [parseSignedOffset]: length of a leading [+h] or [-h] with [h <= 23],
    [0] when there is none. *)
Definition parseSignedOffset (value : string) : nat :=
  match value with
  | String c rest =>
      if Ascii.eqb c "-" || Ascii.eqb c "+" then
        match leadingInt rest with
        | None => O
        | Some (x, rem) =>
            if (String.length rem =? String.length rest)%nat then O
            else if 23 <? x then O
            else (String.length value - String.length rem)%nat
        end
      else O
  | EmptyString => O
  end.

Definition parseGMT (value : string) : nat :=
  let value := drop 3 value in
  match value with
  | EmptyString => 3%nat
  | _ => (3 + parseSignedOffset value)%nat
  end.

Definition is_upper (c : ascii) : bool :=
  ((65 <=? byte c) && (byte c <=? 90))%nat.

(** Number of leading upper-case letters, counted up to [limit]. *)
Fixpoint count_upper (limit : nat) (s : string) : nat :=
  match limit with
  | O => O
  | S limit' =>
      match s with
      | String c s' => if is_upper c then S (count_upper limit' s') else O
      | EmptyString => O
      end
  end.

Definition byte_at_is (s : string) (i : nat) (c : ascii) : bool :=
  match String.get i s with
  | Some d => Ascii.eqb d c
  | None => false
  end.

(** [parseTimeZone]: length of the zone abbreviation that starts [value]. *)
Definition parseTimeZone (value : string) : option nat :=
  if (String.length value <? 3)%nat then None
  else if prefix "ChST" value || prefix "MeST" value then Some 4%nat
  else if prefix "GMT" value then Some (parseGMT value)
  else if byte_at_is value 0 "+" || byte_at_is value 0 "-" then
    match parseSignedOffset value with
    | O => None
    | n => Some n
    end
  else
    match count_upper 6 value with
    | 5%nat => if byte_at_is value 4 "T" then Some 5%nat else None
    | 4%nat =>
        if byte_at_is value 3 "T" || prefix "WITA" value then Some 4%nat else None
    | 3%nat => Some 3%nat
    | _ => None
    end.

Definition commaOrPeriod (c : ascii) : bool :=
  Ascii.eqb c "." || Ascii.eqb c ",".

Fixpoint count_digits (s : string) : nat :=
  match s with
  | String c s' => if is_digit c then S (count_digits s') else O
  | EmptyString => O
  end.

(** [parseNanoseconds value nbytes]: [value] starts with the separator
    and [nbytes - 1] digits follow it. *)
Definition parseNanoseconds (value : string) (nbytes : nat) : option Z :=
  let nbytes := Nat.min nbytes 10 in
  match atoi (substring 1 (nbytes - 1) value) with
  | None => None
  | Some ns => Some (ns * 10 ^ Z.of_nat (10 - nbytes))
  end.

(** The fields [parse] collects while it walks the layout. *)
Record fields : Type := mkFields {
  year : Z; month : Z; day : Z; hour : Z; min : Z; sec : Z; nsec : Z;
  zUTC : bool; zoneOffset : Z; zoneName : string }.

Definition fields0 : fields :=
  mkFields 0 (-1) (-1) 0 0 0 0 false (-1) EmptyString.

(** One reference element against the value: the rest of the value and
    the fields, or failure (a syntax or a range error). *)
Definition parse_std (e : std) (value : string) (f : fields)
  : option (string * fields) :=
  match e with
  | stdWeekDay =>
      match lookup shortDayNames value with
      | None => None
      | Some (_, value) => Some (value, f)
      end
  | stdMonth =>
      match lookup shortMonthNames value with
      | None => None
      | Some (m, value) =>
          Some (value, mkFields (year f) (m + 1) (day f) (hour f) (min f) (sec f)
                         (nsec f) (zUTC f) (zoneOffset f) (zoneName f))
      end
  | stdZeroDay =>
      match getnum value true with
      | None => None
      | Some (d, value) =>
          Some (value, mkFields (year f) (month f) d (hour f) (min f) (sec f)
                         (nsec f) (zUTC f) (zoneOffset f) (zoneName f))
      end
  | stdLongYear =>
      if (String.length value <? 4)%nat || negb (isDigit value 0) then None
      else
        match atoi (substring 0 4 value) with
        | None => None
        | Some y =>
            Some (drop 4 value,
                  mkFields y (month f) (day f) (hour f) (min f) (sec f)
                    (nsec f) (zUTC f) (zoneOffset f) (zoneName f))
        end
  | stdHour =>
      match getnum value false with
      | None => None
      | Some (h, value) =>
          if (h <? 0) || (24 <=? h) then None
          else Some (value, mkFields (year f) (month f) (day f) h (min f) (sec f)
                              (nsec f) (zUTC f) (zoneOffset f) (zoneName f))
      end
  | stdZeroMinute =>
      match getnum value true with
      | None => None
      | Some (m, value) =>
          if (m <? 0) || (60 <=? m) then None
          else Some (value, mkFields (year f) (month f) (day f) (hour f) m (sec f)
                              (nsec f) (zUTC f) (zoneOffset f) (zoneName f))
      end
  | stdZeroSecond =>
      match getnum value true with
      | None => None
      | Some (s, value) =>
          if (s <? 0) || (60 <=? s) then None
          else
            let f := mkFields (year f) (month f) (day f) (hour f) (min f) s
                       (nsec f) (zUTC f) (zoneOffset f) (zoneName f) in
            (* a fractional second in the value that the layout lacks *)
            match value with
            | String c0 rest =>
                if commaOrPeriod c0 && isDigit value 1 then
                  let n := (1 + count_digits rest)%nat in
                  match parseNanoseconds value n with
                  | None => None
                  | Some ns =>
                      Some (drop n value,
                            mkFields (year f) (month f) (day f) (hour f) (min f)
                              (sec f) ns (zUTC f) (zoneOffset f) (zoneName f))
                  end
                else Some (value, f)
            | EmptyString => Some (value, f)
            end
      end
  | stdTZ =>
      if prefix "UTC" value then
        Some (drop 3 value,
              mkFields (year f) (month f) (day f) (hour f) (min f) (sec f)
                (nsec f) true (zoneOffset f) (zoneName f))
      else
        match parseTimeZone value with
        | None => None
        | Some n =>
            Some (drop n value,
                  mkFields (year f) (month f) (day f) (hour f) (min f) (sec f)
                    (nsec f) (zUTC f) (zoneOffset f) (substring 0 n value))
        end
  | stdNumTZ =>
      if (String.length value <? 5)%nat then None
      else
        match getnum (substring 1 2 value) true, getnum (substring 3 2 value) true with
        | Some (hr, _), Some (mm, _) =>
            if (24 <? hr) || (60 <? mm) then None
            else
              let off := (hr * 60 + mm) * 60 in
              let set z :=
                Some (drop 5 value,
                      mkFields (year f) (month f) (day f) (hour f) (min f) (sec f)
                        (nsec f) (zUTC f) z (zoneName f)) in
              if byte_at_is value 0 "+" then set off
              else if byte_at_is value 0 "-" then set (- off)
              else None
        | _, _ => None
        end
  end.

(** The walk of [parse] over the layout; [fuel] bounds the number of
    reference elements. *)
Fixpoint parse_loop (fuel : nat) (layout value : string) (f : fields)
  : option fields :=
  match fuel with
  | O => None
  | S fuel' =>
      let '(pre, e, suffix) := nextStdChunk layout in
      match skip (S (String.length pre)) value pre with
      | None => None
      | Some value =>
          match e with
          | None =>
              match value with
              | EmptyString => Some f
              | String _ _ => None  (* extra text *)
              end
          | Some e =>
              match parse_std e value f with
              | None => None
              | Some (value, f) => parse_loop fuel' suffix value f
              end
          end
      end
  end.

Definition isLeap (y : Z) : bool :=
  (y mod 4 =? 0) && (negb (y mod 100 =? 0) || (y mod 400 =? 0)).

Definition daysIn (m y : Z) : Z :=
  if m =? 2 then (if isLeap y then 29 else 28)
  else if (m =? 4) || (m =? 6) || (m =? 9) || (m =? 11) then 30
  else 31.

(** Days from 1970-01-01 to the civil date [y]-[m]-[d] (proleptic
    Gregorian calendar, [1 <= m <= 12]). *)
Definition daysSinceEpoch (y m d : Z) : Z :=
  let y' := if m <=? 2 then y - 1 else y in
  let era := y' / 400 in
  let yoe := y' - era * 400 in
  let mp := if 2 <? m then m - 3 else m + 9 in
  let doy := (153 * mp + 2) / 5 + d - 1 in
  let doe := yoe * 365 + yoe / 4 - yoe / 100 + doy in
  era * 146097 + doe - 719468.

(** [time.Date(y, m, d, h, mi, s, ns, time.UTC)] for fields in range. *)
Definition Date (y m d h mi s ns : Z) : Time.t :=
  Time.mk (daysSinceEpoch y m d * 86400 + h * 3600 + mi * 60 + s) ns.

Definition addSec (t : Time.t) (d : Z) : Time.t :=
  Time.mk (Time.unixSec t + d) (Time.nsec t).

(** The machine's local zone, as far as [parse] asks it: the offset of
    an abbreviation at an instant ([Location.lookupName]). *)
Definition Location := string -> Z -> option Z.

(** A machine on UTC knows no abbreviation but [UTC], which [parse]
    handles itself. *)
Definition UTC : Location := fun _ _ => None.

(** The end of [parse]: validate the day and place the civil reading. *)
Definition finish (local : Location) (f : fields) : option Time.t :=
  let month := if month f <? 0 then 1 else month f in
  let day := if day f <? 0 then 1 else day f in
  if (day <? 1) || (daysIn month (year f) <? day) then None
  else
    let t := Date (year f) month day (hour f) (min f) (sec f) (nsec f) in
    if zUTC f then Some t
    else if negb (zoneOffset f =? -1) then Some (addSec t (- zoneOffset f))
    else if negb (String.eqb (zoneName f) EmptyString) then
      match local (zoneName f) (Time.unixSec t) with
      | Some offset => Some (addSec t (- offset))
      | None => Some t  (* made-up zone: the reading is taken as UTC *)
      end
    else Some t.

(** [*time.ParseError], without its element and message fields. *)
Record ParseError : Type := mkParseError { Layout : string; Value : string }.

Definition Parse (local : Location) (layout value : string)
  : Time.t + ParseError :=
  match parse_loop (S (String.length layout)) layout value fields0 with
  | None => inr (mkParseError layout value)
  | Some f =>
      match finish local f with
      | None => inr (mkParseError layout value)
      | Some t => inl t
      end
  end.

End GoTime.

(** ** RFC822.UnmarshalXML *)

Definition rfc822layout : list string :=
  ["Mon, 02 Jan 2006 15:04:05 MST";
   "Mon, 02 Jan 2006 15:04:05 -0700"].

(** The loop of [UnmarshalXML] over the layouts still to try; [err] is
    the variable [err] of the method.  [inl t] is [*r = RFC822(t); return
    nil], [inr err] is [return err] with [*r] untouched. *)
Fixpoint try_layouts {E : Type} (parse : string -> string -> Time.t + E)
  (layouts : list string) (v : string) (err : option E) : RFC822 + option E :=
  match layouts with
  | [] => inr err
  | layout :: rest =>
      match parse layout v with
      | inl t => inl t
      | inr e => try_layouts parse rest v (Some e)
      end
  end.

(** [func (r *RFC822) UnmarshalXML(d, start) error]; [parse] is
    [time.Parse] and [v] the text [d.DecodeElement] stored (empty when
    it failed: its error is dropped). *)
Definition UnmarshalXML {E : Type} (parse : string -> string -> Time.t + E)
  (v : string) : RFC822 + option E :=
  try_layouts parse rfc822layout v None.

(** ** The [String] methods of the model file

    [fmt.Sprintf] occurs with [%s] and [%d] only and is written out.
    [time.Time.Format(time.RFC3339)] belongs to the standard library and
    depends on the location of the time; it is the parameter [rfc3339]. *)

(** [append(a, x)] on a slice of strings. *)
Definition append_str (a : list string) (x : string) : list string :=
  (a ++ [x])%list.

Definition quote : string := String (ascii_of_nat 34) EmptyString.

Definition quoted (s : string) : string := quote ++ s ++ quote.

(** [%d] *)
Definition decimal (z : Z) : string :=
  DecimalString.NilZero.string_of_int (Z.to_int z).

Definition byte_string (z : Z) : string :=
  String (ascii_of_nat (Z.to_nat z)) EmptyString.

(** [string(i)] for an integer [i]: the UTF-8 encoding of the code point
    [i], of U+FFFD when [i] is no valid code point. *)
Definition rune_string (r : Z) : string :=
  if (r <? 0) || (1114111 <? r) || ((55296 <=? r) && (r <=? 57343)) then
    byte_string 239 ++ byte_string 191 ++ byte_string 189
  else if r <? 128 then byte_string r
  else if r <? 2048 then
    byte_string (192 + r / 64) ++ byte_string (128 + r mod 64)
  else if r <? 65536 then
    byte_string (224 + r / 4096) ++ byte_string (128 + (r / 64) mod 64)
    ++ byte_string (128 + r mod 64)
  else
    byte_string (240 + r / 262144) ++ byte_string (128 + (r / 4096) mod 64)
    ++ byte_string (128 + (r / 64) mod 64) ++ byte_string (128 + r mod 64).

(** [strings.Replace(s, "\n", "\\n", -1)]: every newline becomes a
    backslash and an [n]. *)
Fixpoint escape_newlines (s : string) : string :=
  match s with
  | EmptyString => EmptyString
  | String c s' =>
      if Ascii.eqb c (ascii_of_nat 10)
      then String (ascii_of_nat 92) (String "n" (escape_newlines s'))
      else String c (escape_newlines s')
  end.

(** The zero [time.Time]: January 1, year 1, 00:00:00 UTC. *)
Definition zeroTime : Time.t := Time.mk (-62135596800) 0.

(** [func (r RFC822) IsZero() bool] and [func (r RFC822) String() string],
    called through a [*RFC822]. *)
Definition RFC822_IsZero (r : option RFC822) : outcome bool :=
  match r with
  | None => Panicked NilDereference
  | Some t => Done (Time.Equal t zeroTime)
  end.

Definition RFC822_String (rfc3339 : Time.t -> string) (r : option RFC822)
  : outcome string :=
  match r with
  | None => Panicked NilDereference
  | Some t => Done (rfc3339 t)
  end.

Definition RSSCategory_String (c : RSSCategory.t) : string :=
  if String.eqb (RSSCategory.Domain c) "" then quoted (RSSCategory.Value c)
  else quoted (RSSCategory.Value c) ++ ", domain=" ++ quoted (RSSCategory.Domain c).

Definition RSSCloud_String (c : RSSCloud.t) : string :=
  "Domain: " ++ quoted (RSSCloud.Domain c)
  ++ ", Port: " ++ decimal (RSSCloud.Port c)
  ++ ", Path: " ++ quoted (RSSCloud.Path c)
  ++ ", RegisterProcedure: " ++ quoted (RSSCloud.RegisterProcedure c)
  ++ ", Protocol: " ++ quoted (RSSCloud.Protocol c).

Definition RSSImage_String (img : RSSImage.t) : string :=
  let a := [] in
  let a := append_str a ("URL: " ++ quoted (RSSImage.URL img)) in
  let a := append_str a ("Title: " ++ quoted (RSSImage.Title img)) in
  let a := append_str a ("Link: " ++ quoted (RSSImage.Link img)) in
  let a := if negb (RSSImage.Width img =? 0)
           then append_str a ("Width: " ++ decimal (RSSImage.Width img)) else a in
  let a := if negb (RSSImage.Height img =? 0)
           then append_str a ("Height: " ++ decimal (RSSImage.Height img)) else a in
  let a := if negb (String.eqb (RSSImage.Description img) "")
           then append_str a ("Description: " ++ quoted (RSSImage.Description img))
           else a in
  String.concat ", " a.

Definition RSSTextInput_String (ti : RSSTextInput.t) : string :=
  "Title: " ++ quoted (RSSTextInput.Title ti)
  ++ ", Description: " ++ quoted (RSSTextInput.Description ti)
  ++ ", Name: " ++ quoted (RSSTextInput.Name ti)
  ++ ", Link: " ++ quoted (RSSTextInput.Link ti).

Definition RSSEnclosure_String (ec : RSSEnclosure.t) : string :=
  "URL: " ++ quoted (RSSEnclosure.URL ec)
  ++ ", Length: " ++ decimal (RSSEnclosure.Length ec)
  ++ ", Type: " ++ quoted (RSSEnclosure.Type_ ec).

Definition RSSSource_String (s : RSSSource.t) : string :=
  quoted (RSSSource.Value s) ++ ", URL: " ++ quoted (RSSSource.URL s).

(** The appends of [RSSItem.String] before and after the publish date. *)
Definition RSSItem_String_head (it : RSSItem.t) : list string :=
  let a := [] in
  let a := if negb (String.eqb (RSSItem.Title it) "")
           then append_str a ("Title: " ++ quoted (RSSItem.Title it)) else a in
  let a := if negb (String.eqb (RSSItem.Description it) "")
           then append_str a ("Description: "
                       ++ quoted (escape_newlines (RSSItem.Description it)))
           else a in
  let a := if negb (String.eqb (RSSItem.Link it) "")
           then append_str a ("Link: " ++ quoted (RSSItem.Link it)) else a in
  let a := if negb (String.eqb (RSSItem.Author it) "")
           then append_str a ("Author: " ++ quoted (RSSItem.Author it)) else a in
  let a := match RSSItem.Categories it with
           | [] => a
           | _ :: _ =>
               append_str a ("Category: ["
                      ++ String.concat ", " (map RSSCategory_String (RSSItem.Categories it))
                      ++ "]")
           end in
  let a := if negb (String.eqb (RSSItem.Comments it) "")
           then append_str a ("Comments: " ++ quoted (RSSItem.Comments it)) else a in
  let a := match RSSItem.Enclosure it with
           | None => a
           | Some ec => append_str a ("Enclosure: {" ++ RSSEnclosure_String ec ++ "}")
           end in
  if negb (String.eqb (RSSItem.GUID it) "")
  then append_str a ("GUID: " ++ quoted (RSSItem.GUID it)) else a.

Definition RSSItem_String (rfc3339 : Time.t -> string) (it : RSSItem.t)
  : outcome string :=
  let a := RSSItem_String_head it in
  match RFC822_IsZero (RSSItem.PubDate it) with
  | Panicked p => Panicked p
  | Done zero =>
      match (if zero then Done a
             else match RFC822_String rfc3339 (RSSItem.PubDate it) with
                  | Panicked p => Panicked p
                  | Done d => Done (append_str a ("PubDate: " ++ d))
                  end) with
      | Panicked p => Panicked p
      | Done a =>
          let a := match RSSItem.Source it with
                   | None => a
                   | Some src => append_str a ("Source: {" ++ RSSSource_String src ++ "}")
                   end in
          Done (String.concat ", " a)
      end
  end.

Definition and_then {A B : Type} (o : outcome A) (k : A -> outcome B) : outcome B :=
  match o with
  | Done a => k a
  | Panicked p => Panicked p
  end.

(** [if !d.IsZero() { a = append(a, label+d.String()) }] on a [*RFC822]. *)
Definition append_date (rfc3339 : Time.t -> string) (label : string)
  (d : option RFC822) (a : list string) : outcome (list string) :=
  and_then (RFC822_IsZero d) (fun zero =>
    if zero then Done a
    else and_then (RFC822_String rfc3339 d) (fun text =>
           Done (append_str a (label ++ text)))).

(** The loop [for i := range c.Items { b = append(b, c.Items[i].String()) }]. *)
Fixpoint items_strings (rfc3339 : Time.t -> string) (items : list RSSItem.t)
  (b : list string) : outcome (list string) :=
  match items with
  | [] => Done b
  | it :: rest =>
      and_then (RSSItem_String rfc3339 it) (fun text =>
        items_strings rfc3339 rest (append_str b text))
  end.

(** The appends of [RSSChannel.String] up to the publish date, and from
    the categories to the skip days. *)
Definition RSSChannel_String_head (c : RSSChannel.t) : list string :=
  let a := [] in
  let a := append_str a ("Title: " ++ quoted (RSSChannel.Title c)) in
  let a := append_str a ("Link: " ++ quoted (RSSChannel.Link c)) in
  let a := append_str a ("Description: " ++ quoted (RSSChannel.Description c)) in
  let a := if negb (String.eqb (RSSChannel.Language c) "")
           then append_str a ("Language: " ++ quoted (RSSChannel.Language c)) else a in
  let a := if negb (String.eqb (RSSChannel.Copyright c) "")
           then append_str a ("Copyright: " ++ quoted (RSSChannel.Copyright c)) else a in
  let a := if negb (String.eqb (RSSChannel.ManagingEditor c) "")
           then append_str a ("ManagingEditor: " ++ quoted (RSSChannel.ManagingEditor c))
           else a in
  if negb (String.eqb (RSSChannel.WebMaster c) "")
  then append_str a ("WebMaster: " ++ quoted (RSSChannel.WebMaster c)) else a.

Definition RSSChannel_String_middle (c : RSSChannel.t) (a : list string)
  : list string :=
  let a := match RSSChannel.Categories c with
           | [] => a
           | _ :: _ =>
               append_str a
                 ("Category: ["
                  ++ String.concat ", " (map RSSCategory_String (RSSChannel.Categories c))
                  ++ "]")
           end in
  let a := if negb (String.eqb (RSSChannel.Generator c) "")
           then append_str a ("Generator: " ++ quoted (RSSChannel.Generator c)) else a in
  let a := if negb (String.eqb (RSSChannel.Docs c) "")
           then append_str a ("Docs: " ++ quoted (RSSChannel.Docs c)) else a in
  let a := match RSSChannel.Cloud c with
           | None => a
           | Some cl => append_str a ("Cloud: {" ++ RSSCloud_String cl ++ "}")
           end in
  let a := if negb (RSSChannel.TTL c =? 0)
           then append_str a ("TTL: " ++ rune_string (RSSChannel.TTL c)) else a in
  let a := match RSSChannel.Image c with
           | None => a
           | Some img => append_str a ("Image: {" ++ RSSImage_String img ++ "}")
           end in
  let a := if negb (String.eqb (RSSChannel.Rating c) "")
           then append_str a ("Rating: " ++ quoted (RSSChannel.Rating c)) else a in
  let a := match RSSChannel.TextInput c with
           | None => a
           | Some ti => append_str a ("TextInput: {" ++ RSSTextInput_String ti ++ "}")
           end in
  let a := match RSSChannel.SkipHours c with
           | [] => a
           | _ :: _ =>
               append_str a
                 ("SkipHours: ["
                  ++ String.concat ", " (map rune_string (RSSChannel.SkipHours c)) ++ "]")
           end in
  match RSSChannel.SkipDays c with
  | [] => a
  | _ :: _ =>
      append_str a
        ("SkipDays: ["
         ++ String.concat ", " (map rune_string (RSSChannel.SkipDays c)) ++ "]")
  end.

Definition RSSChannel_String (rfc3339 : Time.t -> string) (c : RSSChannel.t)
  : outcome string :=
  and_then (append_date rfc3339 "PubDate: " (RSSChannel.PubDate c)
              (RSSChannel_String_head c)) (fun a =>
  and_then (append_date rfc3339 "LastBuildDate: " (RSSChannel.LastBuildDate c) a)
    (fun a =>
  let a := RSSChannel_String_middle c a in
  match RSSChannel.Items c with
  | [] => Done (String.concat ", " a)
  | _ :: _ =>
      and_then (items_strings rfc3339 (RSSChannel.Items c) []) (fun b =>
        Done (String.concat ", "
                (append_str a ("Items: [{" ++ String.concat "}, {" b ++ "}]"))))
  end)).

Definition RSS_String (rfc3339 : Time.t -> string) (rss : RSS.t) : outcome string :=
  and_then (RSSChannel_String rfc3339 (RSS.Channel rss)) (fun text =>
    Done ("Version: " ++ quoted (RSS.Version rss) ++ ", Channel: {" ++ text ++ "}")).

(** ** Vocabulary of the properties *)

(** No leading and no trailing space, tab or newline. *)
Definition trimmed (s : string) : Prop :=
  (forall c, first_byte s = Some c -> in_cutset c cutset = false) /\
  (forall c, last_byte s = Some c -> in_cutset c cutset = false).

(** An item is newer than the instant [T0]: it has a publish date and
    that date is strictly after [T0]. *)
Definition newer_than (T0 : RFC822) (it : RSSItem.t) : bool :=
  match RSSItem.PubDate it with
  | Some d => Time.After d T0
  | None => false
  end.

Definition dated (it : RSSItem.t) : Prop := RSSItem.PubDate it <> None.

(** What the transport chosen for [source] delivers: the body of the
    URL for a source that starts with [http], the file otherwise. *)
Definition fetch (env : Env) (source : string) : bytes + error :=
  if prefix "http" source then
    match Get env source with
    | inr err => inr err
    | inl body => body
    end
  else ReadFile env source.

(** The feed [Feed] builds from a decoded document. *)
Definition parsed (env : Env) (b : bytes) (source : string) : RSS.t + error :=
  match Decode env b with
  | inr err => inr err
  | inl (version, ch) =>
      inl (RSS.mk version (trim_channel ch) b source (Now env) [])
  end.

(** The effects of a call and how it ended. *)
Definition trace {A : Type} (m : M A) : list effect := fst m.
Definition result {A : Type} (m : M A) : outcome A := snd m.

(** The goroutines a trace starts, in order. *)
Fixpoint started (tr : list effect) : list (RSSUpdateNotifier * list RSSItem.t) :=
  match tr with
  | [] => []
  | Go f items :: tr' => (f, items) :: started tr'
  | Stderr _ :: tr' => started tr'
  end.

(** The reference elements of a layout, in order. *)
Fixpoint layout_elements (fuel : nat) (layout : string) : list GoTime.std :=
  match fuel with
  | O => []
  | S fuel' =>
      match GoTime.nextStdChunk layout with
      | (_, Some e, suffix) => e :: layout_elements fuel' suffix
      | (_, None, _) => []
      end
  end.

(** What one tick of the polling loop starts for the new items it found:
    one goroutine per registered notifier, none for an empty result. *)
Definition dispatched (rss : RSS.t) (newItems : list RSSItem.t) : list effect :=
  match newItems with
  | [] => []
  | _ :: _ => map (fun f => Go f newItems) (RSS.rssUpdateNotifiers rss)
  end.

(** [t] is [s] without a run of cutset bytes at its start and one at its
    end. *)
Definition strips (s t : string) : Prop :=
  exists l r,
    s = l ++ t ++ r /\
    (forall c, In c (list_ascii_of_string l) -> in_cutset c cutset = true) /\
    (forall c, In c (list_ascii_of_string r) -> in_cutset c cutset = true).

(** A channel without its items: the metadata. *)
Definition metadata (c : RSSChannel.t) : RSSChannel.t := RSSChannel.with_Items [] c.

(** A logger call that puts a line on the error stream. *)
Definition writes (m : M unit) : Prop := trace m <> [].

(** [x] is not published after [l]. *)
Definition not_after (l x : RSSItem.t) : Prop :=
  forall d dl,
    RSSItem.PubDate x = Some d -> RSSItem.PubDate l = Some dl ->
    Time.After d dl = false.

(** The line [logErr] writes for [err]. *)
Definition error_line (err : error) : effect := Stderr ("[ERROR] " ++ err).

(** A world in which the file [httpd.xml] holds a feed and nothing
    answers on the network. *)
Definition world_httpd (doc : bytes) (ch : RSSChannel.t) : Env :=
  mkEnv Lerror (Time.mk 1526040000 0)
    (fun name => if String.eqb name "httpd.xml" then inl doc
                 else inr ("open " ++ name ++ ": no such file or directory"))
    (fun url => inr ("Get " ++ url ++ ": unsupported protocol scheme"))
    (fun b => if String.eqb b doc then inl ("2.0", ch) else inr "EOF").

(** ** Sample feeds and worlds

    Concrete documents stand for what the decoder yields on them: the
    decoder of a sample world answers its own document and rejects any
    other input. *)

Module Sample.

Definition item (title : string) (pubDate : option RFC822) : RSSItem.t :=
  RSSItem.mk title "" "" "" [] "" None "" pubDate None.

Definition channel (title link : string) (ttl : Z) (items : list RSSItem.t)
  : RSSChannel.t :=
  RSSChannel.mk title link "" "" "" "" "" None None [] "" "" None ttl None ""
    None [] [] items.

(** 2018-05-11T08:28:39Z *)
Definition T0 : RFC822 := Time.mk 1526027319 0.
Definition T1 : RFC822 := Time.mk 1526027379 0.
Definition noon : Time.t := Time.mk 1526040000 0.

(** A world whose only file is [feed.xml] with content [doc], decoded as
    version 2.0 and channel [ch]; there is no network. *)
Definition world (doc : bytes) (ch : RSSChannel.t) : Env :=
  mkEnv Lerror noon
    (fun name => if String.eqb name "feed.xml" then inl doc
                 else inr ("open " ++ name ++ ": no such file or directory"))
    (fun url => inr ("Get " ++ url ++ ": dial tcp: connection refused"))
    (fun b => if String.eqb b doc then inl ("2.0", ch) else inr "EOF").

(** A world without files and without network. *)
Definition offline : Env :=
  mkEnv Lerror noon
    (fun name => inr ("open " ++ name ++ ": no such file or directory"))
    (fun url => inr ("Get " ++ url ++ ": dial tcp: connection refused"))
    (fun b => inr "EOF").

(** A feed read earlier from [feed.xml]: one item, published at [T0]. *)
Definition feed_dated : RSS.t :=
  RSS.mk "2.0" (channel "Old title" "http://example.org/" 20 [item "old" (Some T0)])
    "" "feed.xml" T0 [].

(** The same feed with no item at all. *)
Definition feed_empty : RSS.t :=
  RSS.mk "2.0" (channel "Old title" "http://example.org/" 20 []) "" "feed.xml" T0 [].

(** A feed whose file name has three bytes. *)
Definition feed_short : RSS.t :=
  RSS.mk "2.0" (channel "Old title" "http://example.org/" 20 [item "old" (Some T0)])
    "" "a.x" T0 [].

(** The file now holds a newer item and an item without [pubDate]. *)
Definition doc_undated : bytes :=
  "<rss version='2.0'><channel><title>t</title><link>l</link><description>d</description><item><title>fresh</title><pubDate>Fri, 11 May 2018 16:29:39 +0800</pubDate></item><item><title>undated</title></item></channel></rss>".

Definition world_undated : Env :=
  world doc_undated
    (channel "t" "l" 0 [item "fresh" (Some T1); item "undated" None]).

(** The file now holds the old item, an item of the same instant and a
    newer one. *)
Definition doc_newer : bytes :=
  "<rss version='2.0'><channel><title>New title</title><link>l</link><description>d</description><ttl>60</ttl><item><title>old</title><pubDate>Fri, 11 May 2018 16:28:39 +0800</pubDate></item><item><title>same</title><pubDate>Fri, 11 May 2018 08:28:39 GMT</pubDate></item><item><title>fresh</title><pubDate>Fri, 11 May 2018 16:29:39 +0800</pubDate></item></channel></rss>".

Definition world_newer : Env :=
  world doc_newer
    (channel "New title" "l" 60
       [item "old" (Some T0); item "same" (Some T0); item "fresh" (Some T1)]).

(** The feed [FeedFromFile] builds in that world, and [feed_dated]
    after an update there. *)
Definition feed_newer : RSS.t :=
  RSS.mk "2.0"
    (channel "New title" "l" 60
       [item "old" (Some T0); item "same" (Some T0); item "fresh" (Some T1)])
    doc_newer "feed.xml" noon [].

Definition feed_updated : RSS.t := replace_items world_newer feed_dated feed_newer.

(** A document whose link is surrounded by spaces. *)
Definition doc_padded : bytes :=
  "<rss version='2.0'><channel><title> t </title><link> http://example.org/ </link><description> d </description></channel></rss>".

Definition world_padded : Env :=
  world doc_padded
    (RSSChannel.with_Description " d " (channel " t " " http://example.org/ " 0 [])).

End Sample.

(** * Properties *)

Example nextStdChunk_zone :
  GoTime.nextStdChunk "Mon, 02 Jan 2006 15:04:05 MST"
  = ("", Some GoTime.stdWeekDay, ", 02 Jan 2006 15:04:05 MST").
Proof. reflexivity. Qed.

Example Parse_numeric_offset :
  GoTime.Parse GoTime.UTC "Mon, 02 Jan 2006 15:04:05 -0700"
    "Fri, 11 May 2018 16:28:39 +0800"
  = inl (Time.mk 1526027319 0).
Proof. vm_compute. reflexivity. Qed.

Example Parse_abbreviation_rejects_offset :
  GoTime.Parse GoTime.UTC "Mon, 02 Jan 2006 15:04:05 MST"
    "Fri, 11 May 2018 16:28:39 +0800"
  = inr (GoTime.mkParseError "Mon, 02 Jan 2006 15:04:05 MST"
           "Fri, 11 May 2018 16:28:39 +0800").
Proof. vm_compute. reflexivity. Qed.

Example Parse_gmt :
  GoTime.Parse GoTime.UTC "Mon, 02 Jan 2006 15:04:05 MST"
    "Sat, 07 Sep 2002 00:00:01 GMT"
  = inl (Time.mk 1031356801 0).
Proof. vm_compute. reflexivity. Qed.

(** ** The call monad *)

Lemma bind_done {A B : Type} (m : M A) (k : A -> M B) tr a :
  m = (tr, Done a) -> bind m k = ((tr ++ trace (k a))%list, result (k a)).
Proof. intros ->. unfold bind, trace, result. now destruct (k a). Qed.

Lemma bind_panicked {A B : Type} (m : M A) (k : A -> M B) tr e :
  m = (tr, Panicked e) -> bind m k = (tr, Panicked e).
Proof. now intros ->. Qed.

Lemma result_bind {A B : Type} (m : M A) (k : A -> M B) :
  result (bind m k)
  = match result m with
    | Done a => result (k a)
    | Panicked e => Panicked e
    end.
Proof.
  destruct m as [tr [a|e]]; unfold result; simpl; [|reflexivity].
  now destruct (k a).
Qed.

Lemma trace_bind {A B : Type} (m : M A) (k : A -> M B) :
  trace (bind m k)
  = match result m with
    | Done a => (trace m ++ trace (k a))%list
    | Panicked _ => trace m
    end.
Proof.
  destruct m as [tr [a|e]]; unfold trace, result; simpl; [|reflexivity].
  now destruct (k a).
Qed.

Lemma surjective_call {A : Type} (m : M A) : m = (trace m, result m).
Proof. now destruct m. Qed.

(** ** Logging *)

Lemma result_logTrace env v : result (logTrace env v) = Done tt.
Proof. unfold logTrace. now destruct (_ =? _). Qed.

Lemma result_logErr env v : result (logErr env v) = Done tt.
Proof. unfold logErr. now destruct (_ <=? _). Qed.

Lemma result_logDebugln env v : result (logDebugln env v) = Done tt.
Proof. unfold logDebugln. now destruct (_ <=? _). Qed.

(** [logErr] writes at every declared level: [Lerror] is the highest. *)
Lemma logErr_writes env v :
  LogLevel env <= Lerror ->
  logErr env v = ([Stderr ("[ERROR] " ++ v)], Done tt).
Proof.
  intros H. unfold logErr.
  destruct (Z.leb_spec (LogLevel env) Lerror); [reflexivity|lia].
Qed.

(** ** Trimming *)

Lemma TrimLeft_first s cs c :
  first_byte (TrimLeft s cs) = Some c -> in_cutset c cs = false.
Proof.
  induction s as [|a s IH]; simpl; [discriminate|].
  destruct (in_cutset a cs) eqn:E; [exact IH|].
  simpl. now intros [= <-].
Qed.

Lemma TrimRight_last s cs c :
  last_byte (TrimRight s cs) = Some c -> in_cutset c cs = false.
Proof.
  induction s as [|a s IH]; simpl; [discriminate|].
  destruct (TrimRight s cs) as [|b t] eqn:E.
  - destruct (in_cutset a cs) eqn:Ea; simpl; [discriminate|].
    now intros [= <-].
  - exact IH.
Qed.

Lemma last_byte_cons a s c : last_byte s = Some c -> last_byte (String a s) = Some c.
Proof. destruct s; [discriminate|]. trivial. Qed.

Lemma TrimLeft_last s cs c :
  last_byte (TrimLeft s cs) = Some c -> last_byte s = Some c.
Proof.
  induction s as [|a s IH]; simpl; [discriminate|].
  destruct (in_cutset a cs); [|trivial].
  intros H. apply last_byte_cons. now apply IH.
Qed.

Lemma Trim_trimmed s : trimmed (Trim s cutset).
Proof.
  split; intros c H.
  - exact (TrimLeft_first _ _ _ H).
  - apply TrimLeft_last in H. exact (TrimRight_last _ _ _ H).
Qed.

(** ** Parsing and acquisition *)

Lemma result_Feed env b : result (Feed env b) = Done (parsed env b "").
Proof.
  unfold Feed, parsed. rewrite result_bind, result_logTrace.
  destruct (Decode env b) as [[version ch]|err]; [reflexivity|].
  now rewrite result_bind, result_logErr.
Qed.

Lemma parsed_source env b source :
  parsed env b source
  = match parsed env b "" with
    | inl rss => inl (RSS.with_source source rss)
    | inr err => inr err
    end.
Proof. unfold parsed. now destruct (Decode env b) as [[version ch]|err]. Qed.

Lemma result_FeedFromFile env filename :
  result (FeedFromFile env filename)
  = Done match ReadFile env filename with
         | inr err => inr err
         | inl b => parsed env b filename
         end.
Proof.
  unfold FeedFromFile. destruct (ReadFile env filename) as [b|err].
  - rewrite result_bind, result_Feed, (parsed_source env b filename).
    destruct (parsed env b "") as [rss|err]; [reflexivity|].
    now rewrite result_bind, result_logErr.
  - now rewrite result_bind, result_logErr.
Qed.

Lemma result_FeedFromURL env url :
  result (FeedFromURL env url)
  = Done match Get env url with
         | inr err => inr err
         | inl (inr err) => inr err
         | inl (inl b) => parsed env b url
         end.
Proof.
  unfold FeedFromURL. destruct (Get env url) as [[b|err]|err].
  - rewrite result_bind, result_Feed, (parsed_source env b url).
    destruct (parsed env b "") as [rss|err]; [reflexivity|].
    now rewrite result_bind, result_logErr.
  - now rewrite result_bind, result_logErr.
  - now rewrite result_bind, result_logErr.
Qed.

(** [source[:4] == "http"] is the prefix test. *)
Lemma slice_http s :
  String.eqb (substring 0 4 s) "http" = prefix "http" s.
Proof.
  destruct (String.eqb_spec (substring 0 4 s) "http") as [E|N];
    destruct (prefix "http" s) eqn:P; try reflexivity.
  - apply (prefix_correct "http" s) in E. congruence.
  - apply (prefix_correct "http" s) in P. contradiction.
Qed.

Lemma slice_to_short s n :
  (String.length s < n)%nat -> slice_to s n = Panicked (SliceBounds n (String.length s)).
Proof.
  intros H. unfold slice_to.
  destruct (Nat.leb_spec n (String.length s)); [lia|reflexivity].
Qed.

Lemma slice_to_long s n :
  (n <= String.length s)%nat -> slice_to s n = Done (substring 0 n s).
Proof.
  intros H. unfold slice_to.
  destruct (Nat.leb_spec n (String.length s)); [reflexivity|lia].
Qed.

(** Re-acquisition, by cases: the slice fails, the transport fails, the
    decoder fails, or a fresh feed comes back. *)
Lemma result_reacquire env source :
  result (reacquire env source)
  = match slice_to source 4 with
    | Panicked p => Panicked p
    | Done _ =>
        Done match fetch env source with
             | inr err => inr err
             | inl b => parsed env b source
             end
    end.
Proof.
  unfold reacquire. rewrite result_bind. unfold result at 1, lift, snd.
  unfold slice_to.
  destruct (Nat.leb_spec 4 (String.length source)) as [L|L]; [|reflexivity].
  rewrite slice_http. unfold fetch.
  destruct (prefix "http" source).
  - rewrite result_bind, result_FeedFromURL.
    destruct (Get env source) as [[b|err]|err].
    + destruct (parsed env b source); [reflexivity|].
      now rewrite result_bind, result_logErr.
    + now rewrite result_bind, result_logErr.
    + now rewrite result_bind, result_logErr.
  - rewrite result_bind, result_FeedFromFile.
    destruct (ReadFile env source) as [b|err].
    + destruct (parsed env b source); [reflexivity|].
      now rewrite result_bind, result_logErr.
    + now rewrite result_bind, result_logErr.
Qed.

Lemma result_Serve_acquire env source :
  result (Serve_acquire env source) = result (reacquire env source).
Proof.
  rewrite result_reacquire.
  unfold Serve_acquire. rewrite result_bind. unfold result at 1, lift, snd.
  unfold slice_to.
  destruct (Nat.leb_spec 4 (String.length source)) as [L|L]; [|reflexivity].
  rewrite slice_http. unfold fetch.
  destruct (prefix "http" source).
  - rewrite result_bind, result_FeedFromURL.
    destruct (Get env source) as [[b|err]|err].
    + destruct (parsed env b source); [reflexivity|].
      now rewrite result_bind, result_logDebugln.
    + now rewrite result_bind, result_logDebugln.
    + now rewrite result_bind, result_logDebugln.
  - rewrite result_bind, result_FeedFromFile.
    destruct (ReadFile env source) as [b|err].
    + destruct (parsed env b source); [reflexivity|].
      now rewrite result_bind, result_logDebugln.
    + now rewrite result_bind, result_logDebugln.
Qed.

(** [Update], by cases. *)
Lemma result_Update env rss :
  result (Update env rss)
  = match latestItem rss with
    | Panicked p => Panicked p
    | Done latest =>
        if String.eqb (RSS.source rss) "" then Done (rss, inr "empty rss.source")
        else
          match result (reacquire env (RSS.source rss)) with
          | Panicked p => Panicked p
          | Done (inr err) => Done (rss, inr err)
          | Done (inl rss2) =>
              match latest with
              | None => Done (replace_items env rss rss2, inl [])
              | Some l =>
                  match newer_items l (RSSChannel.Items (RSS.Channel rss2)) [] with
                  | Panicked p => Panicked p
                  | Done newItems => Done (replace_items env rss rss2, inl newItems)
                  end
              end
          end
    end.
Proof.
  unfold Update. rewrite result_bind, result_logTrace, result_bind.
  unfold result at 1, lift, snd.
  destruct (latestItem rss) as [latest|p]; [|reflexivity].
  destruct (String.eqb (RSS.source rss) ""); [reflexivity|].
  rewrite result_bind.
  destruct (result (reacquire env (RSS.source rss))) as [[rss2|err]|p];
    [|reflexivity|reflexivity].
  destruct latest as [l|]; [|reflexivity].
  rewrite result_bind. unfold result at 1, lift, snd. simpl.
  now destruct (newer_items l (RSSChannel.Items (RSS.Channel rss2)) []).
Qed.

(** ** The diff loop *)

Lemma newer_items_dated l T0 items acc :
  RSSItem.PubDate l = Some T0 ->
  Forall dated items ->
  newer_items l items acc = Done (acc ++ filter (newer_than T0) items)%list.
Proof.
  intros Hl H. revert acc.
  induction H as [|it items Hit _ IH]; intros acc; simpl.
  - now rewrite app_nil_r.
  - unfold dated in Hit. unfold newer_than at 1.
    destruct (RSSItem.PubDate it) as [d|] eqn:Hd; [|contradiction].
    rewrite Hl. simpl. destruct (Time.After d T0).
    + rewrite IH, <- app_assoc. reflexivity.
    + apply IH.
Qed.

Lemma newer_items_undated l T0 items acc :
  RSSItem.PubDate l = Some T0 ->
  Exists (fun it => RSSItem.PubDate it = None) items ->
  exists p, newer_items l items acc = Panicked p.
Proof.
  intros Hl H. revert acc.
  induction H as [it items Hit|it items _ IH]; intros acc; simpl.
  - rewrite Hit. simpl. now exists NilDereference.
  - destruct (RFC822_After (RSSItem.PubDate it) (RSSItem.PubDate l)) as [[|]|p].
    + apply IH.
    + apply IH.
    + now exists p.
Qed.

(** With a dated latest item and dated fresh items, [Update] reports the
    fresh items published strictly after the latest one, in document
    order. *)
Lemma Update_reports_newer env rss l T0 rss2 :
  latestItem rss = Done (Some l) ->
  RSSItem.PubDate l = Some T0 ->
  RSS.source rss <> "" ->
  result (reacquire env (RSS.source rss)) = Done (inl rss2) ->
  Forall dated (RSSChannel.Items (RSS.Channel rss2)) ->
  result (Update env rss)
  = Done (replace_items env rss rss2,
          inl (filter (newer_than T0) (RSSChannel.Items (RSS.Channel rss2)))).
Proof.
  intros Hl HT Hs Hr Hd.
  rewrite result_Update, Hl, Hr.
  destruct (String.eqb_spec (RSS.source rss) ""); [contradiction|].
  now rewrite (newer_items_dated l T0 _ [] HT Hd).
Qed.

(** A fresh item without a publish date stops [Update] in the diff loop. *)
Lemma Update_undated_panics env rss l T0 rss2 :
  latestItem rss = Done (Some l) ->
  RSSItem.PubDate l = Some T0 ->
  RSS.source rss <> "" ->
  result (reacquire env (RSS.source rss)) = Done (inl rss2) ->
  Exists (fun it => RSSItem.PubDate it = None) (RSSChannel.Items (RSS.Channel rss2)) ->
  exists p, result (Update env rss) = Panicked p.
Proof.
  intros Hl HT Hs Hr Hu.
  rewrite result_Update, Hl, Hr.
  destruct (String.eqb_spec (RSS.source rss) ""); [contradiction|].
  destruct (newer_items_undated l T0 _ [] HT Hu) as [p ->]. now exists p.
Qed.

Example Update_same_instant_not_new :
  exists rss',
    result (Update Sample.world_newer Sample.feed_dated)
    = Done (rss', inl [Sample.item "fresh" (Some Sample.T1)]).
Proof. eexists. vm_compute. reflexivity. Qed.

(** * Properties of the specification *)

(** C1 (the code departs from the claim).  The claim: with a latest
    prior item published at [T0], [Update] reports exactly the fresh
    items published strictly after [T0], and an item with no publish date
    is simply not new.  On the sample feed whose only item is published
    at [T0], and a fresh document holding a newer item and an undated
    one, the claim asks for the newer item alone; [Update] panics on the
    nil [PubDate] of the undated item instead of returning. *)
Theorem Update_undated_item_panics :
  latestItem Sample.feed_dated = Done (Some (Sample.item "old" (Some Sample.T0))) /\
  (exists rss2,
     result (reacquire Sample.world_undated (RSS.source Sample.feed_dated))
     = Done (inl rss2) /\
     RSSChannel.Items (RSS.Channel rss2)
     = [Sample.item "fresh" (Some Sample.T1); Sample.item "undated" None] /\
     filter (newer_than Sample.T0) (RSSChannel.Items (RSS.Channel rss2))
     = [Sample.item "fresh" (Some Sample.T1)]) /\
  result (Update Sample.world_undated Sample.feed_dated) = Panicked NilDereference.
Proof.
  split; [reflexivity|]. split; [|vm_compute; reflexivity].
  eexists. split; [vm_compute; reflexivity|]. split; reflexivity.
Qed.

(** C2.  When re-acquisition or re-parsing fails during [Update], the
    error is returned and the feed after the call is the feed before it:
    channel, items and last-update time are untouched. *)
Theorem Update_failure_leaves_feed env rss latest err :
  latestItem rss = Done latest ->
  result (reacquire env (RSS.source rss)) = Done (inr err) ->
  result (Update env rss) = Done (rss, inr err).
Proof.
  intros Hl Hr. rewrite result_Update, Hl, Hr.
  destruct (String.eqb_spec (RSS.source rss) "") as [E|_]; [|reflexivity].
  rewrite result_reacquire, E in Hr. discriminate Hr.
Qed.

Lemma Update_failure_leaves_feed_witness :
  latestItem Sample.feed_dated = Done (Some (Sample.item "old" (Some Sample.T0))) /\
  result (reacquire Sample.offline (RSS.source Sample.feed_dated))
  = Done (inr "open feed.xml: no such file or directory") /\
  result (Update Sample.offline Sample.feed_dated)
  = Done (Sample.feed_dated, inr "open feed.xml: no such file or directory").
Proof.
  split; [reflexivity|]. split; [reflexivity|].
  apply (Update_failure_leaves_feed Sample.offline Sample.feed_dated
           (Some (Sample.item "old" (Some Sample.T0)))); reflexivity.
Defined.

(** C3.  On a feed with no items, a non-empty source and a successful
    acquisition, [Update] returns no new items and no error. *)
Theorem Update_empty_feed_reports_nothing env rss rss2 :
  RSSChannel.Items (RSS.Channel rss) = [] ->
  RSS.source rss <> "" ->
  result (reacquire env (RSS.source rss)) = Done (inl rss2) ->
  result (Update env rss) = Done (replace_items env rss rss2, inl []).
Proof.
  intros Hi Hs Hr. rewrite result_Update. unfold latestItem. rewrite Hi, Hr.
  now destruct (String.eqb_spec (RSS.source rss) "").
Qed.

Lemma Update_empty_feed_reports_nothing_witness :
  RSSChannel.Items (RSS.Channel Sample.feed_empty) = [] /\
  RSS.source Sample.feed_empty <> "" /\
  exists rss2,
    result (reacquire Sample.world_newer (RSS.source Sample.feed_empty))
    = Done (inl rss2) /\
    result (Update Sample.world_newer Sample.feed_empty)
    = Done (replace_items Sample.world_newer Sample.feed_empty rss2, inl []).
Proof.
  split; [reflexivity|]. split; [discriminate|].
  eexists. split; [vm_compute; reflexivity|].
  apply (Update_empty_feed_reports_nothing Sample.world_newer Sample.feed_empty);
    [reflexivity|discriminate|vm_compute; reflexivity].
Defined.

(** A successful [Feed] is the decoded document after the trimming pass. *)
Lemma Feed_success env b rss :
  result (Feed env b) = Done (inl rss) ->
  exists version ch,
    Decode env b = inl (version, ch) /\
    rss = RSS.mk version (trim_channel ch) b "" (Now env) [].
Proof.
  rewrite result_Feed. unfold parsed.
  destruct (Decode env b) as [[version ch]|err]; [|discriminate].
  intros [= <-]. now exists version, ch.
Qed.

(** C4 as stated fails: the link of the channel is not trimmed.  The
    decoder copies character data as it stands, and [Feed] trims title,
    description and copyright only. *)
Lemma Feed_keeps_link_padding :
  exists rss,
    result (Feed Sample.world_padded Sample.doc_padded) = Done (inl rss) /\
    RSSChannel.Link (RSS.Channel rss) = " http://example.org/ " /\
    ~ trimmed (RSSChannel.Link (RSS.Channel rss)).
Proof.
  eexists. split; [vm_compute; reflexivity|]. split; [reflexivity|].
  intros [H _]. specialize (H " "%char eq_refl). discriminate H.
Qed.

(** C4 (amended).  After a successful parse the channel's title,
    description and copyright and every item's title and description
    carry no leading or trailing space, tab or newline. *)
Theorem Feed_trims env b rss :
  result (Feed env b) = Done (inl rss) ->
  trimmed (RSSChannel.Title (RSS.Channel rss)) /\
  trimmed (RSSChannel.Description (RSS.Channel rss)) /\
  trimmed (RSSChannel.Copyright (RSS.Channel rss)) /\
  Forall (fun it => trimmed (RSSItem.Title it) /\ trimmed (RSSItem.Description it))
         (RSSChannel.Items (RSS.Channel rss)).
Proof.
  intros H. destruct (Feed_success _ _ _ H) as (version & ch & _ & ->).
  simpl. repeat split; try apply Trim_trimmed.
  apply Forall_map, Forall_forall. intros it _. simpl.
  split; apply Trim_trimmed.
Qed.

Lemma Feed_trims_witness :
  exists rss,
    result (Feed Sample.world_padded Sample.doc_padded) = Done (inl rss) /\
    RSSChannel.Title (RSS.Channel rss) = "t" /\
    trimmed (RSSChannel.Title (RSS.Channel rss)) /\
    trimmed (RSSChannel.Description (RSS.Channel rss)).
Proof.
  eexists. split; [vm_compute; reflexivity|]. split; [reflexivity|].
  pose proof (Feed_trims Sample.world_padded Sample.doc_padded _ eq_refl) as H.
  split; [exact (proj1 H)|exact (proj1 (proj2 H))].
Defined.

(** C5 as stated fails: on a successful [Update] the title and the TTL of
    the channel are the old ones, while the fresh parse carries others;
    the channel after the call is not the freshly parsed channel. *)
Lemma Update_keeps_channel_metadata :
  exists rss' rss2,
    result (Update Sample.world_newer Sample.feed_empty) = Done (rss', inl []) /\
    result (reacquire Sample.world_newer (RSS.source Sample.feed_empty))
    = Done (inl rss2) /\
    RSSChannel.Title (RSS.Channel rss2) = "New title" /\
    RSSChannel.TTL (RSS.Channel rss2) = 60 /\
    RSSChannel.Title (RSS.Channel rss') = "Old title" /\
    RSSChannel.TTL (RSS.Channel rss') = 20 /\
    RSS.Channel rss' <> RSS.Channel rss2.
Proof.
  eexists. eexists.
  split; [vm_compute; reflexivity|]. split; [vm_compute; reflexivity|].
  repeat (split; [reflexivity|]). discriminate.
Qed.

(** C5 (amended).  On a successful [Update] the item sequence of the feed
    is the freshly parsed one and the last-update time is the current
    time; the other fields of the channel (title, link, description, TTL
    and the rest) and of the feed are the ones it had before. *)
Theorem Update_replaces_items_only env rss rss' newItems :
  result (Update env rss) = Done (rss', inl newItems) ->
  exists rss2,
    result (reacquire env (RSS.source rss)) = Done (inl rss2) /\
    RSSChannel.Items (RSS.Channel rss') = RSSChannel.Items (RSS.Channel rss2) /\
    RSS.lastUpdateAt rss' = Now env /\
    RSS.Channel rss'
    = RSSChannel.with_Items (RSSChannel.Items (RSS.Channel rss2)) (RSS.Channel rss) /\
    RSSChannel.Title (RSS.Channel rss') = RSSChannel.Title (RSS.Channel rss) /\
    RSSChannel.Description (RSS.Channel rss') = RSSChannel.Description (RSS.Channel rss) /\
    RSSChannel.TTL (RSS.Channel rss') = RSSChannel.TTL (RSS.Channel rss) /\
    rss' = replace_items env rss rss2.
Proof.
  rewrite result_Update.
  destruct (latestItem rss) as [latest|p]; [|discriminate].
  destruct (String.eqb (RSS.source rss) ""); [discriminate|].
  destruct (result (reacquire env (RSS.source rss))) as [[rss2|err]|p];
    [|discriminate|discriminate].
  intros H. exists rss2. split; [reflexivity|].
  assert (rss' = replace_items env rss rss2) as ->.
  { destruct latest as [l|].
    - destruct (newer_items l _ []); [|discriminate]. now injection H.
    - now injection H. }
  repeat split.
Qed.

Lemma Update_replaces_items_only_witness :
  exists rss' rss2,
    result (Update Sample.world_newer Sample.feed_dated)
    = Done (rss', inl [Sample.item "fresh" (Some Sample.T1)]) /\
    result (reacquire Sample.world_newer (RSS.source Sample.feed_dated))
    = Done (inl rss2) /\
    RSSChannel.Items (RSS.Channel rss') = RSSChannel.Items (RSS.Channel rss2) /\
    RSS.lastUpdateAt rss' = Sample.noon.
Proof.
  eexists. eexists. split; [vm_compute; reflexivity|].
  pose proof (Update_replaces_items_only Sample.world_newer Sample.feed_dated
                _ _ eq_refl) as (rss2 & Hr & Hi & Ht & _).
  split; [vm_compute; reflexivity|]. split; reflexivity.
Defined.

(** ** The tick interval *)

Lemma wrap64_small z : - 2 ^ 63 <= z < 2 ^ 63 -> wrap64 z = z.
Proof.
  intros H. unfold wrap64.
  change (2 ^ 64) with (2 * 2 ^ 63). rewrite Z.mod_small; lia.
Qed.

(** C6.  The interval of the ticker: a non-zero interval given by the
    caller; otherwise the channel's TTL, when positive, times one minute
    in [time.Duration] arithmetic, which is that many minutes whenever the
    product is representable (up to 153722867 minutes); otherwise the
    default interval.  A TTL of 20 gives 20 minutes. *)
Theorem Serve_interval_order (ttl : Duration) (rss : RSS.t) :
  (ttl <> 0 -> Serve_interval ttl rss = ttl) /\
  (ttl = 0 -> 0 < RSSChannel.TTL (RSS.Channel rss) ->
   Serve_interval ttl rss = Duration_mul (RSSChannel.TTL (RSS.Channel rss)) Minute /\
   (RSSChannel.TTL (RSS.Channel rss) <= 153722867 ->
    Serve_interval ttl rss = RSSChannel.TTL (RSS.Channel rss) * Minute)) /\
  (ttl = 0 -> RSSChannel.TTL (RSS.Channel rss) <= 0 ->
   Serve_interval ttl rss = DefaultTTL) /\
  (ttl = 0 -> RSSChannel.TTL (RSS.Channel rss) = 20 ->
   Serve_interval ttl rss = 20 * Minute).
Proof.
  unfold Serve_interval.
  split; [|split; [|split]].
  - intros H. destruct (Z.eqb_spec ttl 0); [contradiction|reflexivity].
  - intros -> H. simpl.
    destruct (Z.ltb_spec 0 (RSSChannel.TTL (RSS.Channel rss))); [|lia].
    split; [reflexivity|]. intros Hb. unfold Duration_mul.
    apply wrap64_small. unfold Minute, Second, Nanosecond.
    change (2 ^ 63) with 9223372036854775808. lia.
  - intros -> H. simpl.
    destruct (Z.ltb_spec 0 (RSSChannel.TTL (RSS.Channel rss))); [lia|reflexivity].
  - intros -> H. simpl. rewrite H. reflexivity.
Qed.

Lemma Serve_interval_order_witness :
  Serve_interval (4 * Second) Sample.feed_dated = 4 * Second /\
  Serve_interval 0 Sample.feed_dated = 20 * Minute /\
  Serve_interval 0 Sample.feed_dated = 1200000000000 /\
  Serve_interval 0 (RSS.with_Channel (Sample.channel "t" "l" 0 []) Sample.feed_dated)
  = DefaultTTL.
Proof.
  split; [|split; [|split]].
  - apply (proj1 (Serve_interval_order (4 * Second) Sample.feed_dated)).
    discriminate.
  - apply (proj2 (proj1 (proj2 (Serve_interval_order 0 Sample.feed_dated))
                    eq_refl eq_refl)).
    discriminate.
  - apply (proj2 (proj2 (proj2 (Serve_interval_order 0 Sample.feed_dated)))
             eq_refl eq_refl).
  - apply (proj1 (proj2 (proj2 (Serve_interval_order 0
             (RSS.with_Channel (Sample.channel "t" "l" 0 []) Sample.feed_dated))))
             eq_refl).
    discriminate.
Defined.

Example Serve_interval_wraps :
  Serve_interval 0 (RSS.with_Channel (Sample.channel "t" "l" 153722868 [])
                      Sample.feed_dated)
  = -9223371993709551616.
Proof. reflexivity. Qed.

(** ** The polling loop *)

Lemma notify_spec fs newItems :
  notify fs newItems = (map (fun f => Go f newItems) fs, Done tt).
Proof.
  induction fs as [|f fs IH]; [reflexivity|].
  simpl. rewrite IH. reflexivity.
Qed.

Lemma Update_failure_feed env rss rss' err :
  result (Update env rss) = Done (rss', inr err) -> rss' = rss.
Proof.
  rewrite result_Update.
  destruct (latestItem rss) as [latest|p]; [|discriminate].
  destruct (String.eqb (RSS.source rss) ""); [now intros [= <-]|].
  destruct (result (reacquire env (RSS.source rss))) as [[rss2|e]|p];
    [|now intros [= <-]|discriminate].
  destruct latest as [l|]; [|discriminate].
  destruct (newer_items l _ []); discriminate.
Qed.

(** A tick whose update succeeds: the effects of the update, the
    dispatch, then the rest of the loop on the updated feed. *)
Lemma serveLoop_tick_done env rss rest rss' newItems :
  result (Update env rss) = Done (rss', inl newItems) ->
  serveLoop rss (Tick env :: rest)
  = ((trace (Update env rss) ++ dispatched rss' newItems
      ++ trace (serveLoop rss' rest))%list,
     result (serveLoop rss' rest)).
Proof.
  intros H. simpl.
  rewrite (bind_done _ _ _ _ (eq_trans (surjective_call _) (f_equal _ H))).
  f_equal; [f_equal|].
  - destruct newItems as [|it newItems].
    + simpl. unfold trace. simpl. now destruct (serveLoop rss' rest).
    + rewrite notify_spec. unfold trace, dispatched. simpl.
      now destruct (serveLoop rss' rest).
  - destruct newItems as [|it newItems].
    + unfold result. simpl. now destruct (serveLoop rss' rest).
    + rewrite notify_spec. unfold result. simpl.
      now destruct (serveLoop rss' rest).
Qed.

(** A tick whose update fails: the effects of the update, the call of
    [logErr], and the return of the error; the later events are not
    looked at. *)
Lemma serveLoop_tick_failed env rss rest rss' err :
  result (Update env rss) = Done (rss', inr err) ->
  serveLoop rss (Tick env :: rest)
  = ((trace (Update env rss) ++ trace (logErr env err))%list,
     Done (rss', Returned (Some err))).
Proof.
  intros H. simpl.
  rewrite (bind_done _ _ _ _ (eq_trans (surjective_call _) (f_equal _ H))).
  unfold trace at 2, result. unfold logErr.
  destruct (_ <=? _); simpl; [reflexivity|now rewrite app_nil_r].
Qed.

(** The loop that is still waiting after [pre] goes on with the events
    that follow. *)
Lemma serveLoop_app pre : forall rss rss1 events,
  result (serveLoop rss pre) = Done (rss1, Waiting) ->
  serveLoop rss (pre ++ events)
  = ((trace (serveLoop rss pre) ++ trace (serveLoop rss1 events))%list,
     result (serveLoop rss1 events)).
Proof.
  induction pre as [|[|env] pre IH]; intros rss rss1 events H.
  - injection H as <-. simpl. apply surjective_call.
  - discriminate H.
  - destruct (result (Update env rss)) as [[rss' [newItems|err]]|p] eqn:HU.
    + rewrite (serveLoop_tick_done _ _ _ _ _ HU) in H. unfold result in H. simpl in H.
      rewrite <- app_comm_cons, (serveLoop_tick_done _ _ _ _ _ HU).
      rewrite (serveLoop_tick_done _ _ _ _ _ HU).
      rewrite (IH _ _ events H). unfold trace at 2 4. simpl.
      now rewrite <- !app_assoc.
    + rewrite (serveLoop_tick_failed _ _ _ _ _ HU) in H. discriminate H.
    + simpl in H. rewrite result_bind, HU in H. discriminate H.
Qed.

(** C7.  When the update of a tick fails, the loop calls [logErr] on the
    error as its last effect (at every declared log level this writes the
    error line) and returns that error to the caller; whatever events
    follow, nothing more happens: no further update, no restart. *)
Theorem Serve_stops_on_update_failure rss ttl pre env rest rss1 rss' err :
  0 < Serve_interval ttl rss ->
  result (serveLoop rss pre) = Done (rss1, Waiting) ->
  result (Update env rss1) = Done (rss', inr err) ->
  RSS_Serve rss ttl (pre ++ Tick env :: rest)
  = ((trace (serveLoop rss pre) ++ trace (Update env rss1)
      ++ trace (logErr env err))%list,
     Done (rss1, Returned (Some err))) /\
  (LogLevel env <= Lerror ->
   trace (logErr env err) = [Stderr ("[ERROR] " ++ err)]).
Proof.
  intros Hi Hp HU. split.
  - unfold RSS_Serve.
    destruct (Z.leb_spec (Serve_interval ttl rss) 0); [lia|].
    rewrite (serveLoop_app _ _ _ _ Hp), (serveLoop_tick_failed _ _ _ _ _ HU).
    now rewrite (Update_failure_feed _ _ _ _ HU).
  - intros H. now rewrite (logErr_writes _ _ H).
Qed.

Lemma Serve_stops_on_update_failure_witness :
  0 < Serve_interval 0 Sample.feed_dated /\
  result (serveLoop Sample.feed_dated [Tick Sample.world_newer])
  = Done (Sample.feed_updated, Waiting) /\
  result (Update Sample.offline Sample.feed_updated)
  = Done (Sample.feed_updated, inr "open feed.xml: no such file or directory") /\
  result (RSS_Serve Sample.feed_dated 0
            [Tick Sample.world_newer; Tick Sample.offline; Tick Sample.world_newer])
  = Done (Sample.feed_updated,
          Returned (Some "open feed.xml: no such file or directory")) /\
  last (trace (RSS_Serve Sample.feed_dated 0
            [Tick Sample.world_newer; Tick Sample.offline; Tick Sample.world_newer]))
       (Stderr "")
  = Stderr "[ERROR] open feed.xml: no such file or directory".
Proof.
  split; [reflexivity|]. split; [vm_compute; reflexivity|].
  split; [vm_compute; reflexivity|].
  change [Tick Sample.world_newer; Tick Sample.offline; Tick Sample.world_newer]
    with ([Tick Sample.world_newer]
          ++ Tick Sample.offline :: [Tick Sample.world_newer])%list.
  rewrite (proj1 (Serve_stops_on_update_failure Sample.feed_dated 0
             [Tick Sample.world_newer] Sample.offline [Tick Sample.world_newer]
             Sample.feed_updated Sample.feed_updated
             "open feed.xml: no such file or directory"
             eq_refl eq_refl eq_refl)).
  split; [reflexivity|]. vm_compute. reflexivity.
Defined.

(** ** Sources shorter than the prefix *)

(** C9.  With a recorded source of one to three bytes [Update] never
    returns, neither items nor an acquisition or configuration error:
    once [latestItem] is through, slicing the first four bytes of the
    source panics, out of range.  The package-level [Serve] slices
    before anything else and panics in the same way on every source
    shorter than four bytes, the empty one included. *)
Theorem short_source_panics env rss source f ttl events :
  RSS.source rss <> "" ->
  (String.length (RSS.source rss) < 4)%nat ->
  (String.length source < 4)%nat ->
  (forall r, result (Update env rss) <> Done r) /\
  (forall latest,
     latestItem rss = Done latest ->
     result (Update env rss)
     = Panicked (SliceBounds 4 (String.length (RSS.source rss)))) /\
  Serve env source f ttl events
  = ([], Panicked (SliceBounds 4 (String.length source))).
Proof.
  intros Hs Hl Hl'.
  assert (forall latest, latestItem rss = Done latest ->
            result (Update env rss)
            = Panicked (SliceBounds 4 (String.length (RSS.source rss)))) as HU.
  { intros latest H. rewrite result_Update, H, result_reacquire.
    destruct (String.eqb_spec (RSS.source rss) ""); [contradiction|].
    now rewrite (slice_to_short _ _ Hl). }
  split; [|split; [exact HU|]].
  - intros r. destruct (latestItem rss) as [latest|p] eqn:H.
    + now rewrite (HU latest eq_refl).
    + now rewrite result_Update, H.
  - unfold Serve, Serve_acquire. now rewrite (slice_to_short _ _ Hl').
Qed.

Lemma short_source_panics_witness :
  RSS.source Sample.feed_short <> "" /\
  (String.length (RSS.source Sample.feed_short) < 4)%nat /\
  (String.length "" < 4)%nat /\
  result (Update Sample.offline Sample.feed_short) = Panicked (SliceBounds 4 3) /\
  Serve Sample.offline "" 7%nat 0 [] = ([], Panicked (SliceBounds 4 0)).
Proof.
  split; [discriminate|]. split; [simpl; lia|]. split; [simpl; lia|].
  pose proof (short_source_panics Sample.offline Sample.feed_short "" 7%nat 0 []) as H.
  destruct H as (_ & HU & HS); [discriminate|simpl; lia|simpl; lia|].
  split; [exact (HU _ eq_refl)|exact HS].
Defined.

(** ** The initial dispatch *)

Lemma started_app tr tr' : started (tr ++ tr') = (started tr ++ started tr')%list.
Proof.
  induction tr as [|[line|f items] tr IH]; simpl; [reflexivity|exact IH|].
  now rewrite IH.
Qed.

Lemma started_logTrace env v : started (trace (logTrace env v)) = [].
Proof. unfold logTrace. now destruct (_ =? _). Qed.

Lemma started_logErr env v : started (trace (logErr env v)) = [].
Proof. unfold logErr. now destruct (_ <=? _). Qed.

Lemma started_logDebugln env v : started (trace (logDebugln env v)) = [].
Proof. unfold logDebugln. now destruct (_ <=? _). Qed.

Lemma started_then_ret {A B : Type} (m : M A) (b : B) :
  started (trace m) = [] -> started (trace (m ;;; ret b)) = [].
Proof.
  intros H. rewrite trace_bind. destruct (result m); [|exact H].
  rewrite started_app, H. reflexivity.
Qed.

Lemma started_Feed env b : started (trace (Feed env b)) = [].
Proof.
  unfold Feed. rewrite trace_bind, result_logTrace, started_app, started_logTrace.
  destruct (Decode env b) as [[version ch]|err]; [reflexivity|].
  apply (started_then_ret (logErr env err)), started_logErr.
Qed.

Lemma started_FeedFromFile env filename :
  started (trace (FeedFromFile env filename)) = [].
Proof.
  unfold FeedFromFile. destruct (ReadFile env filename) as [b|err].
  - rewrite trace_bind.
    destruct (result (Feed env b)) as [[rss|err]|p]; try apply started_Feed.
    + rewrite started_app, started_Feed. reflexivity.
    + rewrite started_app, started_Feed.
      apply (started_then_ret (logErr env err)), started_logErr.
  - apply (started_then_ret (logErr env err)), started_logErr.
Qed.

Lemma started_FeedFromURL env url :
  started (trace (FeedFromURL env url)) = [].
Proof.
  unfold FeedFromURL. destruct (Get env url) as [[b|err]|err].
  - rewrite trace_bind.
    destruct (result (Feed env b)) as [[rss|err]|p]; try apply started_Feed.
    + rewrite started_app, started_Feed. reflexivity.
    + rewrite started_app, started_Feed.
      apply (started_then_ret (logErr env err)), started_logErr.
  - apply (started_then_ret (logErr env err)), started_logErr.
  - apply (started_then_ret (logErr env err)), started_logErr.
Qed.

(** The initial acquisition writes log lines only. *)
Lemma Serve_acquire_starts_nothing env source :
  started (trace (Serve_acquire env source)) = [].
Proof.
  unfold Serve_acquire. rewrite trace_bind.
  destruct (slice_to source 4) as [pre|p]; [|reflexivity].
  unfold result at 1, trace at 1, lift, fst, snd. rewrite app_nil_l.
  destruct (String.eqb pre "http"); rewrite trace_bind.
  - destruct (result (FeedFromURL env source)) as [[rss|err]|p];
      try apply started_FeedFromURL;
      rewrite started_app, started_FeedFromURL; [reflexivity|].
    apply (started_then_ret (logDebugln env _)), started_logDebugln.
  - destruct (result (FeedFromFile env source)) as [[rss|err]|p];
      try apply started_FeedFromFile;
      rewrite started_app, started_FeedFromFile; [reflexivity|].
    apply (started_then_ret (logDebugln env _)), started_logDebugln.
Qed.

(** C10.  After a successful initial acquisition with a non-empty item
    sequence the package-level [Serve] starts the notifier [f] on the
    whole sequence, after the acquisition and before anything the
    polling loop does; up to the first tick this is the one goroutine it
    has started. *)
Theorem Serve_initial_dispatch env source f ttl events rss :
  result (Serve_acquire env source) = Done (inl rss) ->
  RSSChannel.Items (RSS.Channel rss) <> [] ->
  trace (Serve env source f ttl events)
  = (trace (Serve_acquire env source)
     ++ Go f (RSSChannel.Items (RSS.Channel rss))
     :: trace (RSS_Serve (RegisterRSSUpdateNotifier rss f) ttl events))%list /\
  started (trace (Serve_acquire env source)) = [] /\
  started (trace (Serve env source f ttl []))
  = [(f, RSSChannel.Items (RSS.Channel rss))].
Proof.
  intros Ha Hi.
  assert (forall evs,
            trace (Serve env source f ttl evs)
            = (trace (Serve_acquire env source)
               ++ Go f (RSSChannel.Items (RSS.Channel rss))
               :: trace (RSS_Serve (RegisterRSSUpdateNotifier rss f) ttl evs))%list)
    as HT.
  { intros evs. unfold Serve.
    rewrite (bind_done _ _ _ _ (eq_trans (surjective_call _) (f_equal _ Ha))).
    unfold trace at 1. simpl. f_equal.
    destruct (RSSChannel.Items (RSS.Channel rss)) as [|it items] eqn:E;
      [contradiction|].
    unfold go, bind, ret, trace. simpl.
    destruct (RSS_Serve (RegisterRSSUpdateNotifier rss f) ttl evs) as [tr [r|p]];
      simpl; [now rewrite app_nil_r|reflexivity]. }
  split; [apply HT|]. split; [apply Serve_acquire_starts_nothing|].
  rewrite HT, started_app, Serve_acquire_starts_nothing. simpl. f_equal.
  unfold RSS_Serve. now destruct (_ <=? _).
Qed.

Lemma Serve_initial_dispatch_witness :
  result (Serve_acquire Sample.world_newer "feed.xml") = Done (inl Sample.feed_newer) /\
  RSSChannel.Items (RSS.Channel Sample.feed_newer) <> [] /\
  started (trace (Serve Sample.world_newer "feed.xml" 7%nat 0 []))
  = [(7%nat, RSSChannel.Items (RSS.Channel Sample.feed_newer))].
Proof.
  split; [vm_compute; reflexivity|]. split; [discriminate|].
  apply (Serve_initial_dispatch Sample.world_newer "feed.xml" 7%nat 0 []
           Sample.feed_newer);
    [vm_compute; reflexivity|discriminate].
Defined.

(** With no item in the initial feed there is no initial dispatch. *)
Lemma Serve_no_initial_dispatch env source f ttl rss :
  result (Serve_acquire env source) = Done (inl rss) ->
  RSSChannel.Items (RSS.Channel rss) = [] ->
  started (trace (Serve env source f ttl [])) = [].
Proof.
  intros Ha Hi. unfold Serve.
  rewrite (bind_done _ _ _ _ (eq_trans (surjective_call _) (f_equal _ Ha))).
  unfold trace at 1. simpl. rewrite Hi.
  rewrite started_app, Serve_acquire_starts_nothing. simpl.
  unfold RSS_Serve, bind, ret, lift, trace. simpl.
  now destruct (_ <=? _).
Qed.

(** ** The date normalizer *)

Lemma try_layouts_two {E : Type} (parse : string -> string -> Time.t + E) l1 l2 v :
  try_layouts parse [l1; l2] v None
  = match parse l1 v with
    | inl t => inl t
    | inr _ =>
        match parse l2 v with
        | inl t => inl t
        | inr e2 => inr (Some e2)
        end
    end.
Proof. simpl. destruct (parse l1 v); [reflexivity|]. now destruct (parse l2 v). Qed.

(** C8.  [UnmarshalXML] tries the layout with a zone abbreviation, then
    the layout with a numeric offset; it stores the instant of the first
    layout that parses and fails, with the error of the last layout, only
    when both fail.  The text [Fri, 11 May 2018 16:28:39 +0800] gives the
    instant 2018-05-11T08:28:39Z, whatever the local zone of the machine. *)
Theorem UnmarshalXML_layout_order {E : Type}
  (parse : string -> string -> Time.t + E) (v : string) :
  let abbreviation := "Mon, 02 Jan 2006 15:04:05 MST" in
  let numeric := "Mon, 02 Jan 2006 15:04:05 -0700" in
  rfc822layout = [abbreviation; numeric] /\
  last (layout_elements 30 abbreviation) GoTime.stdWeekDay = GoTime.stdTZ /\
  last (layout_elements 30 numeric) GoTime.stdWeekDay = GoTime.stdNumTZ /\
  (forall t,
     UnmarshalXML parse v = inl t <->
     parse abbreviation v = inl t \/
     ((exists e, parse abbreviation v = inr e) /\ parse numeric v = inl t)) /\
  (forall err,
     UnmarshalXML parse v = inr err <->
     exists e1 e2,
       parse abbreviation v = inr e1 /\ parse numeric v = inr e2 /\ err = Some e2) /\
  (forall local,
     UnmarshalXML (GoTime.Parse local) "Fri, 11 May 2018 16:28:39 +0800"
     = inl (GoTime.Date 2018 5 11 8 28 39 0)) /\
  GoTime.Date 2018 5 11 8 28 39 0 = Time.mk 1526027319 0.
Proof.
  intros abbreviation numeric.
  split; [reflexivity|]. split; [reflexivity|]. split; [reflexivity|].
  unfold UnmarshalXML, rfc822layout. fold abbreviation numeric.
  rewrite try_layouts_two.
  split; [|split; [|split]].
  - intros t. destruct (parse abbreviation v) as [t1|e1].
    + split; [intros [= <-]; now left|].
      intros [[= <-]|[[e H] _]]; [reflexivity|discriminate H].
    + destruct (parse numeric v) as [t2|e2].
      * split; [intros [= <-]; right; split; [now exists e1|reflexivity]|].
        intros [H|[_ [= <-]]]; [discriminate H|reflexivity].
      * split; [discriminate|].
        intros [H|[_ H]]; discriminate H.
  - intros err. destruct (parse abbreviation v) as [t1|e1].
    + split; [discriminate|]. intros (e & e2 & H & _). discriminate H.
    + destruct (parse numeric v) as [t2|e2].
      * split; [discriminate|]. intros (e & e' & _ & H & _). discriminate H.
      * split.
        -- intros [= <-]. now exists e1, e2.
        -- intros (e & e' & _ & [= <-] & ->). reflexivity.
  - intros local. vm_compute. reflexivity.
  - reflexivity.
Qed.

Example rfc822layout_elements :
  map (layout_elements 30) rfc822layout
  = [[GoTime.stdWeekDay; GoTime.stdZeroDay; GoTime.stdMonth; GoTime.stdLongYear;
      GoTime.stdHour; GoTime.stdZeroMinute; GoTime.stdZeroSecond; GoTime.stdTZ];
     [GoTime.stdWeekDay; GoTime.stdZeroDay; GoTime.stdMonth; GoTime.stdLongYear;
      GoTime.stdHour; GoTime.stdZeroMinute; GoTime.stdZeroSecond; GoTime.stdNumTZ]].
Proof. reflexivity. Qed.

Example UnmarshalXML_rejects_iso :
  UnmarshalXML (GoTime.Parse GoTime.UTC) "2018-05-11T08:28:39Z"
  = inr (Some (GoTime.mkParseError "Mon, 02 Jan 2006 15:04:05 -0700"
                 "2018-05-11T08:28:39Z")).
Proof. vm_compute. reflexivity. Qed.

Example UnmarshalXML_gmt :
  UnmarshalXML (GoTime.Parse GoTime.UTC) "Fri, 11 May 2018 08:28:39 GMT"
  = inl Sample.T0.
Proof. vm_compute. reflexivity. Qed.

Example UnmarshalXML_later :
  UnmarshalXML (GoTime.Parse GoTime.UTC) "Fri, 11 May 2018 16:29:39 +0800"
  = inl Sample.T1.
Proof. vm_compute. reflexivity. Qed.

(** ** The earlier revision *)

Remark Earlier_latestItem_empty rss :
  RSSChannel.Items (RSS.Channel rss) = [] ->
  Earlier.latestItem rss = Panicked (IndexRange 0 0).
Proof. intros H. unfold Earlier.latestItem. now rewrite H. Qed.

Remark Earlier_Update_keeps_feed env rss rss' r :
  result (Earlier.Update env rss) = Done (rss', r) -> rss' = rss.
Proof.
  unfold Earlier.Update.
  rewrite result_bind, result_logTrace, result_bind.
  unfold result at 1, lift, snd.
  destruct (Earlier.latestItem rss) as [latest|p]; [|discriminate].
  destruct (String.eqb (RSS.source rss) ""); [now intros [= <- _]|].
  rewrite result_bind. unfold result at 1, lift, snd.
  destruct (slice_to (RSS.source rss) 4) as [pre|p]; [|discriminate].
  rewrite result_bind.
  destruct (result (if String.eqb pre "http"
                    then FeedFromURL env (RSS.source rss)
                    else FeedFromFile env (RSS.source rss))) as [[rss2|err]|p];
    [| |discriminate].
  - rewrite result_bind. unfold result at 1, lift, snd.
    destruct (newer_items latest _ []); [|discriminate].
    now intros [= <- _].
  - rewrite result_bind, result_logErr. now intros [= <- _].
Qed.

Remark Earlier_Serve_interval_seconds rss :
  Earlier.Serve_interval 4 rss = 4 * Second.
Proof. reflexivity. Qed.

(** * Further properties *)

(** ** The latest item *)

Lemma After_irrefl a : Time.After a a = false.
Proof.
  unfold Time.After. rewrite Z.ltb_irrefl, Z.ltb_irrefl. simpl.
  now rewrite andb_false_r.
Qed.

Lemma After_spec a b :
  Time.After a b = true <->
  Time.unixSec b < Time.unixSec a \/
  (Time.unixSec a = Time.unixSec b /\ Time.nsec b < Time.nsec a).
Proof.
  unfold Time.After.
  rewrite orb_true_iff, andb_true_iff, !Z.ltb_lt, Z.eqb_eq. reflexivity.
Qed.

(** An instant that is not after [a] is not after anything after [a]. *)
Lemma After_below x a b :
  Time.After b a = true -> Time.After x a = false -> Time.After x b = false.
Proof.
  intros Hb Hx. apply After_spec in Hb.
  destruct (Time.After x b) eqn:E; [|reflexivity].
  apply After_spec in E.
  assert (Time.After x a = true) as C; [|congruence].
  apply After_spec. lia.
Qed.

Lemma not_after_refl l : not_after l l.
Proof. intros d dl H1 H2. rewrite H1 in H2. injection H2 as <-. apply After_irrefl. Qed.

Lemma latestItem_from_spec rest : forall latest l,
  latestItem_from latest rest = Done l ->
  (l = latest \/ In l rest) /\
  (forall x, not_after latest x -> not_after l x) /\
  (forall x, In x rest -> not_after l x).
Proof.
  induction rest as [|it rest IH]; intros latest l H; simpl in H.
  - injection H as <-. split; [now left|]. split; [trivial|]. intros x [].
  - destruct (RSSItem.PubDate it) as [d|] eqn:Hd; [|discriminate H].
    destruct (RSSItem.PubDate latest) as [dl|] eqn:Hl; [|discriminate H].
    simpl in H. destruct (Time.After d dl) eqn:Ha.
    + destruct (IH _ _ H) as (Hin & Hmono & Hrest).
      assert (forall x, not_after latest x -> not_after it x) as Hup.
      { intros x Hx dx d' Hdx Hd'. rewrite Hd in Hd'. injection Hd' as <-.
        apply (After_below dx dl d Ha). exact (Hx dx dl Hdx Hl). }
      split; [destruct Hin as [->|Hin]; right; [now left|now right]|].
      split; [intros x Hx; apply Hmono, Hup, Hx|].
      intros x [<-|Hx]; [apply Hmono, not_after_refl|now apply Hrest].
    + destruct (IH _ _ H) as (Hin & Hmono & Hrest).
      split; [destruct Hin as [->|Hin]; [now left|right; now right]|].
      split; [exact Hmono|].
      intros x [<-|Hx]; [|now apply Hrest].
      apply Hmono. intros dx d' Hdx Hd'.
      rewrite Hd in Hdx. rewrite Hl in Hd'.
      injection Hdx as <-. injection Hd' as <-. exact Ha.
Qed.

Lemma latestItem_maximal rss l :
  latestItem rss = Done (Some l) ->
  In l (RSSChannel.Items (RSS.Channel rss)) /\
  forall it d dl,
    In it (RSSChannel.Items (RSS.Channel rss)) ->
    RSSItem.PubDate it = Some d -> RSSItem.PubDate l = Some dl ->
    Time.After d dl = false.
Proof.
  unfold latestItem.
  destruct (RSSChannel.Items (RSS.Channel rss)) as [|it0 rest]; [discriminate|].
  destruct (latestItem_from it0 rest) as [l'|p] eqn:H; [|discriminate].
  intros [= <-]. destruct (latestItem_from_spec _ _ _ H) as (Hin & Hmono & Hrest).
  split; [destruct Hin as [->|Hin]; [now left|now right]|].
  intros it d dl [<-|Hit] Hd Hl.
  - exact (Hmono _ (not_after_refl _) d dl Hd Hl).
  - exact (Hrest _ Hit d dl Hd Hl).
Qed.

(** X1.  When [latestItem] returns an item, it is one of the feed's items
    and no item of the feed is published after it. *)
Theorem latestItem_is_latest rss l :
  latestItem rss = Done (Some l) ->
  In l (RSSChannel.Items (RSS.Channel rss)) /\
  forall it d dl,
    In it (RSSChannel.Items (RSS.Channel rss)) ->
    RSSItem.PubDate it = Some d -> RSSItem.PubDate l = Some dl ->
    Time.After d dl = false.
Proof. exact (latestItem_maximal rss l). Qed.

Lemma latestItem_is_latest_witness :
  latestItem Sample.feed_newer = Done (Some (Sample.item "fresh" (Some Sample.T1))) /\
  In (Sample.item "fresh" (Some Sample.T1))
     (RSSChannel.Items (RSS.Channel Sample.feed_newer)) /\
  Time.After Sample.T0 Sample.T1 = false.
Proof.
  split; [reflexivity|].
  pose proof (latestItem_is_latest Sample.feed_newer
                (Sample.item "fresh" (Some Sample.T1)) eq_refl) as [Hin Hmax].
  split; [exact Hin|].
  apply (Hmax (Sample.item "old" (Some Sample.T0))); [now left|reflexivity|reflexivity].
Defined.

Lemma latestItem_from_completes rest : forall latest,
  (exists l, latestItem_from latest rest = Done l) <->
  rest = [] \/ (dated latest /\ Forall dated rest).
Proof.
  induction rest as [|it rest IH]; intros latest.
  - split; [now left|]. intros _. now exists latest.
  - simpl. unfold dated at 1. split.
    + intros [l H]. right.
      destruct (RSSItem.PubDate it) as [d|] eqn:Hd; [|discriminate H].
      destruct (RSSItem.PubDate latest) as [dl|] eqn:Hl; [|discriminate H].
      split; [discriminate|]. simpl in H.
      assert (dated it) as Hit by (unfold dated; now rewrite Hd).
      constructor; [exact Hit|].
      destruct (Time.After d dl).
      * destruct (proj1 (IH it) (ex_intro _ l H)) as [->|[_ HF]]; [constructor|exact HF].
      * destruct (proj1 (IH latest) (ex_intro _ l H)) as [->|[_ HF]]; [constructor|exact HF].
    + intros [C|[Hl HF]]; [discriminate C|].
      inversion HF as [|it' rest' Hit HF']; subst.
      unfold dated in Hit.
      destruct (RSSItem.PubDate it) as [d|] eqn:Hd; [|contradiction].
      destruct (RSSItem.PubDate latest) as [dl|] eqn:Hdl; [|contradiction].
      simpl. destruct (Time.After d dl).
      * apply IH. right. split; [unfold dated; now rewrite Hd|exact HF'].
      * apply IH. right. split; [unfold dated; now rewrite Hdl|exact HF'].
Qed.

Lemma latestItem_completes rss :
  (exists r, latestItem rss = Done r) <->
  (List.length (RSSChannel.Items (RSS.Channel rss)) <= 1)%nat \/
  Forall dated (RSSChannel.Items (RSS.Channel rss)).
Proof.
  unfold latestItem.
  destruct (RSSChannel.Items (RSS.Channel rss)) as [|it0 rest].
  - split; [left; simpl; lia|]. intros _. now exists None.
  - split.
    + intros [r H]. destruct (latestItem_from it0 rest) as [l|p] eqn:E; [|discriminate].
      destruct (proj1 (latestItem_from_completes rest it0) (ex_intro _ l E))
        as [->|[H0 HF]]; [left; simpl; lia|right; now constructor].
    + intros H.
      assert (exists l, latestItem_from it0 rest = Done l) as [l ->];
        [|now exists (Some l)].
      apply latestItem_from_completes.
      destruct H as [H|H].
      * left. destruct rest; [reflexivity|simpl in H; lia].
      * right. inversion H; subst. now split.
Qed.

(** X2.  [latestItem] completes exactly on the feeds with at most one
    item or with a publish date on every item; on every other feed it
    dereferences a nil [PubDate]. *)
Theorem latestItem_completes_iff rss :
  (exists r, latestItem rss = Done r) <->
  (List.length (RSSChannel.Items (RSS.Channel rss)) <= 1)%nat \/
  Forall dated (RSSChannel.Items (RSS.Channel rss)).
Proof. exact (latestItem_completes rss). Qed.

(** ** Updates of an unchanged feed *)

Lemma filter_none {A : Type} (f : A -> bool) (l : list A) :
  (forall x, In x l -> f x = false) -> filter f l = [].
Proof.
  induction l as [|a l IH]; intros H; [reflexivity|]. simpl.
  rewrite (H a (or_introl eq_refl)). apply IH. intros x Hx. apply H. now right.
Qed.

Lemma Update_unchanged env rss rss2 :
  RSS.source rss <> "" ->
  result (reacquire env (RSS.source rss)) = Done (inl rss2) ->
  RSSChannel.Items (RSS.Channel rss2) = RSSChannel.Items (RSS.Channel rss) ->
  Forall dated (RSSChannel.Items (RSS.Channel rss)) ->
  result (Update env rss) = Done (replace_items env rss rss2, inl []).
Proof.
  intros Hs Hr Hi Hd.
  destruct (proj2 (latestItem_completes rss) (or_intror Hd)) as [[l|] Hl].
  - destruct (latestItem_maximal rss l Hl) as [Hin Hmax].
    pose proof (proj1 (Forall_forall _ _) Hd l Hin) as Hdl. unfold dated in Hdl.
    destruct (RSSItem.PubDate l) as [T0|] eqn:HT; [|contradiction].
    rewrite <- Hi in Hd.
    rewrite (Update_reports_newer env rss l T0 rss2 Hl HT Hs Hr Hd).
    rewrite filter_none; [reflexivity|].
    intros x Hx. unfold newer_than.
    destruct (RSSItem.PubDate x) as [d|] eqn:Hdx; [|reflexivity].
    rewrite Hi in Hx. exact (Hmax x d T0 Hx Hdx eq_refl).
  - rewrite result_Update, Hl, Hr.
    now destruct (String.eqb_spec (RSS.source rss) "").
Qed.

(** X3.  When the re-acquired document carries the item sequence the
    feed already has, every item dated, [Update] reports no new item. *)
Theorem Update_unchanged_reports_nothing env rss rss2 :
  RSS.source rss <> "" ->
  result (reacquire env (RSS.source rss)) = Done (inl rss2) ->
  RSSChannel.Items (RSS.Channel rss2) = RSSChannel.Items (RSS.Channel rss) ->
  Forall dated (RSSChannel.Items (RSS.Channel rss)) ->
  result (Update env rss) = Done (replace_items env rss rss2, inl []).
Proof. exact (Update_unchanged env rss rss2). Qed.

Lemma Update_unchanged_reports_nothing_witness :
  result (Update Sample.world_newer Sample.feed_newer)
  = Done (replace_items Sample.world_newer Sample.feed_newer Sample.feed_newer, inl []).
Proof.
  apply (Update_unchanged_reports_nothing Sample.world_newer Sample.feed_newer
           Sample.feed_newer).
  - discriminate.
  - vm_compute. reflexivity.
  - reflexivity.
  - repeat constructor; discriminate.
Defined.

Lemma Update_success env rss rss' newItems :
  result (Update env rss) = Done (rss', inl newItems) ->
  exists rss2,
    result (reacquire env (RSS.source rss)) = Done (inl rss2) /\
    rss' = replace_items env rss rss2 /\
    RSS.source rss <> "".
Proof.
  rewrite result_Update.
  destruct (latestItem rss) as [latest|p]; [|discriminate].
  destruct (String.eqb_spec (RSS.source rss) "") as [E|N]; [discriminate|].
  destruct (result (reacquire env (RSS.source rss))) as [[rss2|err]|p];
    [|discriminate|discriminate].
  intros H. exists rss2. split; [reflexivity|]. split; [|exact N].
  destruct latest as [l|].
  - destruct (newer_items l _ []); [|discriminate]. now injection H.
  - now injection H.
Qed.



(** ** Feeds and their source *)

Lemma parsed_inv env b source rss :
  parsed env b source = inl rss ->
  RSS.source rss = source /\ RSS.origin rss = b /\
  RSS.lastUpdateAt rss = Now env /\ RSS.rssUpdateNotifiers rss = [] /\
  exists version ch,
    Decode env b = inl (version, ch) /\
    RSS.Version rss = version /\ RSS.Channel rss = trim_channel ch.
Proof.
  unfold parsed. destruct (Decode env b) as [[version ch]|err]; [|discriminate].
  intros [= <-]. simpl. repeat split. now exists version, ch.
Qed.

(** X5.  A feed built by [Feed] from bytes has no source: whatever the
    world holds, [Update] on it returns the error [empty rss.source] and
    leaves the feed as it is (once [latestItem] is through). *)
Theorem Feed_then_Update_has_no_source env b rss env' r :
  result (Feed env b) = Done (inl rss) ->
  latestItem rss = Done r ->
  result (Update env' rss) = Done (rss, inr "empty rss.source").
Proof.
  rewrite result_Feed. intros H Hl. injection H as H.
  destruct (parsed_inv _ _ _ _ H) as (Hs & _).
  now rewrite result_Update, Hl, Hs.
Qed.

Lemma Feed_then_Update_has_no_source_witness :
  exists rss,
    result (Feed Sample.world_newer Sample.doc_newer) = Done (inl rss) /\
    result (Update Sample.world_newer rss) = Done (rss, inr "empty rss.source").
Proof.
  eexists. split; [vm_compute; reflexivity|].
  apply (Feed_then_Update_has_no_source Sample.world_newer Sample.doc_newer _
           Sample.world_newer (Some (Sample.item "fresh" (Some Sample.T1))));
    vm_compute; reflexivity.
Defined.

Lemma prefix_length s1 s2 :
  prefix s1 s2 = true -> (String.length s1 <= String.length s2)%nat.
Proof.
  revert s2. induction s1 as [|a s1 IH]; intros s2 H; simpl; [lia|].
  destruct s2 as [|b s2]; [discriminate H|]. simpl in H |- *.
  destruct (ascii_dec a b); [|discriminate H].
  specialize (IH _ H). lia.
Qed.

(** X6.  The transport is chosen by the first four bytes of the source
    alone.  A feed read with [FeedFromFile] from a file whose name starts
    with [http] is re-acquired over the network: when [http.Get] fails on
    the name, [Update] returns that error although the file is readable. *)
Theorem FeedFromFile_http_name env filename rss err r :
  prefix "http" filename = true ->
  result (FeedFromFile env filename) = Done (inl rss) ->
  Get env filename = inr err ->
  latestItem rss = Done r ->
  result (Update env rss) = Done (rss, inr err).
Proof.
  intros Hp Hf Hg Hl. rewrite result_FeedFromFile in Hf.
  injection Hf as Hf.
  destruct (ReadFile env filename) as [b|e]; [|discriminate Hf].
  destruct (parsed_inv _ _ _ _ Hf) as (Hs & _).
  pose proof (prefix_length _ _ Hp) as Hlen. simpl in Hlen.
  rewrite result_Update, Hl, Hs, result_reacquire, (slice_to_long _ _ Hlen).
  unfold fetch. rewrite Hp, Hg.
  destruct (String.eqb_spec filename "") as [E|_]; [|reflexivity].
  subst. rewrite E in Hlen. simpl in Hlen. lia.
Qed.

Lemma FeedFromFile_http_name_witness :
  exists rss,
    result (FeedFromFile
              (world_httpd Sample.doc_newer (RSS.Channel Sample.feed_newer))
              "httpd.xml") = Done (inl rss) /\
    result (Update
              (world_httpd Sample.doc_newer (RSS.Channel Sample.feed_newer))
              rss)
    = Done (rss, inr "Get httpd.xml: unsupported protocol scheme").
Proof.
  eexists. split; [vm_compute; reflexivity|].
  apply (FeedFromFile_http_name
           (world_httpd Sample.doc_newer (RSS.Channel Sample.feed_newer))
           "httpd.xml" _ "Get httpd.xml: unsupported protocol scheme"
           (Some (Sample.item "fresh" (Some Sample.T1))));
    vm_compute; reflexivity.
Defined.

(** ** What polling keeps and what it starts *)

Lemma started_reacquire env source : started (trace (reacquire env source)) = [].
Proof.
  unfold reacquire. rewrite trace_bind.
  destruct (slice_to source 4) as [pre|p]; [|reflexivity].
  unfold result at 1, trace at 1, lift, fst, snd. rewrite app_nil_l.
  destruct (String.eqb pre "http"); rewrite trace_bind.
  - destruct (result (FeedFromURL env source)) as [[rss|err]|p];
      try apply started_FeedFromURL;
      rewrite started_app, started_FeedFromURL; [reflexivity|].
    apply (started_then_ret (logErr env _)), started_logErr.
  - destruct (result (FeedFromFile env source)) as [[rss|err]|p];
      try apply started_FeedFromFile;
      rewrite started_app, started_FeedFromFile; [reflexivity|].
    apply (started_then_ret (logErr env _)), started_logErr.
Qed.

Lemma Update_starts_nothing env rss : started (trace (Update env rss)) = [].
Proof.
  unfold Update.
  rewrite trace_bind, result_logTrace, started_app, started_logTrace, app_nil_l.
  rewrite trace_bind. unfold result at 1, trace at 1, lift, fst, snd.
  destruct (latestItem rss) as [latest|p]; [|reflexivity]. rewrite app_nil_l.
  destruct (String.eqb (RSS.source rss) ""); [reflexivity|].
  rewrite trace_bind.
  destruct (result (reacquire env (RSS.source rss))) as [[rss2|err]|p];
    try apply started_reacquire;
    rewrite started_app, started_reacquire; [|reflexivity].
  destruct latest as [l|]; [|reflexivity].
  rewrite trace_bind. unfold result at 1, trace at 1, lift, fst, snd.
  now destruct (newer_items l _ []).
Qed.

Lemma started_dispatched rss newItems :
  started (dispatched rss newItems)
  = match newItems with
    | [] => []
    | _ :: _ => map (fun f => (f, newItems)) (RSS.rssUpdateNotifiers rss)
    end.
Proof.
  unfold dispatched. destruct newItems as [|it newItems]; [reflexivity|].
  induction (RSS.rssUpdateNotifiers rss) as [|f fs IH]; [reflexivity|].
  simpl. now rewrite IH.
Qed.

(** X7.  Polling never changes what identifies a feed: after any number
    of ticks the source, the version, the origin bytes, the registered
    notifiers and the metadata of the channel are the ones the loop
    started with; only the items and the last-update time move. *)
Theorem serveLoop_keeps_identity events : forall rss rss' s,
  result (serveLoop rss events) = Done (rss', s) ->
  RSS.source rss' = RSS.source rss /\
  RSS.Version rss' = RSS.Version rss /\
  RSS.origin rss' = RSS.origin rss /\
  RSS.rssUpdateNotifiers rss' = RSS.rssUpdateNotifiers rss /\
  metadata (RSS.Channel rss') = metadata (RSS.Channel rss).
Proof.
  induction events as [|[|env] events IH]; intros rss rss' s H.
  - injection H as <- _. repeat split.
  - injection H as <- _. repeat split.
  - destruct (result (Update env rss)) as [[rss1 [newItems|err]]|p] eqn:HU.
    + rewrite (serveLoop_tick_done _ _ _ _ _ HU) in H.
      destruct (IH _ _ _ H) as (H1 & H2 & H3 & H4 & H5).
      destruct (Update_success _ _ _ _ HU) as (rss2 & _ & -> & _).
      rewrite H1, H2, H3, H4, H5. repeat split.
    + rewrite (serveLoop_tick_failed _ _ _ _ _ HU) in H.
      injection H as <- _. rewrite (Update_failure_feed _ _ _ _ HU). repeat split.
    + simpl in H. rewrite result_bind, HU in H. discriminate H.
Qed.

Lemma serveLoop_keeps_identity_witness :
  result (serveLoop Sample.feed_dated [Tick Sample.world_newer])
  = Done (Sample.feed_updated, Waiting) /\
  RSS.source Sample.feed_updated = "feed.xml" /\
  RSSChannel.Title (RSS.Channel Sample.feed_updated) = "Old title".
Proof.
  split; [vm_compute; reflexivity|].
  destruct (serveLoop_keeps_identity [Tick Sample.world_newer] Sample.feed_dated
              Sample.feed_updated Waiting eq_refl) as (H1 & _ & _ & _ & H5).
  split; [exact H1|]. exact (f_equal RSSChannel.Title H5).
Defined.

Lemma tick_started env rss rss' newItems :
  result (Update env rss) = Done (rss', inl newItems) ->
  started (trace (serveLoop rss [Tick env]))
  = match newItems with
    | [] => []
    | _ :: _ => map (fun f => (f, newItems)) (RSS.rssUpdateNotifiers rss)
    end.
Proof.
  intros HU. rewrite (serveLoop_tick_done _ _ _ _ _ HU). unfold trace at 1, fst.
  rewrite !started_app, Update_starts_nothing, started_dispatched. simpl.
  rewrite app_nil_r.
  destruct (Update_success _ _ _ _ HU) as (rss2 & _ & -> & _). reflexivity.
Qed.

(** X8.  A tick whose update finds new items starts one goroutine per
    registered notifier, in registration order, each on the same new
    items; a tick that finds none starts nothing. *)
Theorem tick_notifies_every_notifier env rss rss' newItems :
  result (Update env rss) = Done (rss', inl newItems) ->
  started (trace (serveLoop rss [Tick env]))
  = match newItems with
    | [] => []
    | _ :: _ => map (fun f => (f, newItems)) (RSS.rssUpdateNotifiers rss)
    end.
Proof. exact (tick_started env rss rss' newItems). Qed.

Lemma tick_notifies_every_notifier_witness :
  started (trace (serveLoop
                    (RegisterRSSUpdateNotifier
                       (RegisterRSSUpdateNotifier Sample.feed_dated 1%nat) 2%nat)
                    [Tick Sample.world_newer]))
  = [(1%nat, [Sample.item "fresh" (Some Sample.T1)]);
     (2%nat, [Sample.item "fresh" (Some Sample.T1)])].
Proof.
  apply (tick_notifies_every_notifier Sample.world_newer
           (RegisterRSSUpdateNotifier
              (RegisterRSSUpdateNotifier Sample.feed_dated 1%nat) 2%nat)
           (replace_items Sample.world_newer
              (RegisterRSSUpdateNotifier
                 (RegisterRSSUpdateNotifier Sample.feed_dated 1%nat) 2%nat)
              Sample.feed_newer)
           [Sample.item "fresh" (Some Sample.T1)]).
  vm_compute. reflexivity.
Defined.

(** X9.  A value on [stopServe] ends the loop at once: [Serve] returns
    nil, and neither the stop nor anything after it adds an update, a log
    line or a goroutine to what the earlier ticks did. *)
Theorem Serve_stops_on_signal rss ttl pre rest rss1 :
  0 < Serve_interval ttl rss ->
  result (serveLoop rss pre) = Done (rss1, Waiting) ->
  RSS_Serve rss ttl (pre ++ Stop :: rest)
  = (trace (serveLoop rss pre), Done (rss1, Returned None)).
Proof.
  intros Hi Hp. unfold RSS_Serve.
  destruct (Z.leb_spec (Serve_interval ttl rss) 0); [lia|].
  rewrite (serveLoop_app _ _ _ _ Hp). simpl. unfold trace at 2. simpl.
  now rewrite app_nil_r.
Qed.

Lemma Serve_stops_on_signal_witness :
  result (RSS_Serve Sample.feed_dated 0
            [Tick Sample.world_newer; Stop; Tick Sample.offline])
  = Done (Sample.feed_updated, Returned None).
Proof.
  change [Tick Sample.world_newer; Stop; Tick Sample.offline]
    with ([Tick Sample.world_newer] ++ Stop :: [Tick Sample.offline])%list.
  rewrite (Serve_stops_on_signal Sample.feed_dated 0 [Tick Sample.world_newer]
             [Tick Sample.offline] Sample.feed_updated eq_refl);
    [reflexivity|vm_compute; reflexivity].
Defined.

(** X10.  [Serve] creates its ticker before the first update: with a
    negative interval from the caller it panics in [time.NewTicker]
    whatever the events, and with a positive one, or with none and a TTL
    of at most 153722867 minutes, it enters the loop. *)
Theorem Serve_ticker rss ttl events :
  (ttl < 0 -> RSS_Serve rss ttl events = ([], Panicked NonPositiveInterval)) /\
  (0 < ttl \/ (ttl = 0 /\ RSSChannel.TTL (RSS.Channel rss) <= 153722867) ->
   RSS_Serve rss ttl events = serveLoop rss events).
Proof.
  unfold RSS_Serve, Serve_interval. split.
  - intros H. destruct (Z.eqb_spec ttl 0); [lia|].
    destruct (Z.leb_spec ttl 0); [reflexivity|lia].
  - intros [H|[-> H]].
    + destruct (Z.eqb_spec ttl 0); [lia|].
      destruct (Z.leb_spec ttl 0); [lia|reflexivity].
    + simpl. destruct (Z.ltb_spec 0 (RSSChannel.TTL (RSS.Channel rss))) as [Hp|Hp].
      * unfold Duration_mul. rewrite wrap64_small.
        -- destruct (Z.leb_spec (RSSChannel.TTL (RSS.Channel rss) * Minute) 0) as [C|_];
             [|reflexivity].
           unfold Minute, Second, Nanosecond in C. lia.
        -- unfold Minute, Second, Nanosecond.
           change (2 ^ 63) with 9223372036854775808. lia.
      * reflexivity.
Qed.

Lemma Serve_ticker_witness :
  RSS_Serve Sample.feed_dated (-1) [Tick Sample.world_newer]
  = ([], Panicked NonPositiveInterval) /\
  RSS_Serve Sample.feed_dated 0 [] = serveLoop Sample.feed_dated [].
Proof.
  split.
  - apply (proj1 (Serve_ticker Sample.feed_dated (-1) [Tick Sample.world_newer])).
    reflexivity.
  - apply (proj2 (Serve_ticker Sample.feed_dated 0 [])).
    right. split; [reflexivity|discriminate].
Defined.

(** ** The package-level Serve *)

(** X11.  When the initial acquisition fails, the package-level [Serve]
    returns that error: it registers nothing, starts no goroutine and
    never enters the polling loop, whatever events are pending. *)
Theorem Serve_acquisition_failure env source f ttl events err :
  result (Serve_acquire env source) = Done (inr err) ->
  Serve env source f ttl events
  = (trace (Serve_acquire env source), Done (Returned (Some err))) /\
  started (trace (Serve env source f ttl events)) = [].
Proof.
  intros Ha.
  assert (Serve env source f ttl events
          = (trace (Serve_acquire env source), Done (Returned (Some err)))) as ->.
  { unfold Serve.
    rewrite (bind_done _ _ _ _ (eq_trans (surjective_call _) (f_equal _ Ha))).
    unfold trace at 2, result. simpl. now rewrite app_nil_r. }
  split; [reflexivity|]. apply Serve_acquire_starts_nothing.
Qed.

Lemma Serve_acquisition_failure_witness :
  result (Serve Sample.offline "feed.xml" 7%nat 0 [Tick Sample.world_newer])
  = Done (Returned (Some "open feed.xml: no such file or directory")) /\
  started (trace (Serve Sample.offline "feed.xml" 7%nat 0 [Tick Sample.world_newer])) = [].
Proof.
  destruct (Serve_acquisition_failure Sample.offline "feed.xml" 7%nat 0
              [Tick Sample.world_newer] "open feed.xml: no such file or directory"
              eq_refl) as [H1 H2].
  split; [now rewrite H1|exact H2].
Defined.

Lemma Serve_trace env source f ttl events rss :
  result (Serve_acquire env source) = Done (inl rss) ->
  trace (Serve env source f ttl events)
  = (trace (Serve_acquire env source)
     ++ match RSSChannel.Items (RSS.Channel rss) with
        | [] => []
        | _ :: _ => [Go f (RSSChannel.Items (RSS.Channel rss))]
        end
     ++ trace (RSS_Serve (RegisterRSSUpdateNotifier rss f) ttl events))%list.
Proof.
  intros Ha. unfold Serve.
  rewrite (bind_done _ _ _ _ (eq_trans (surjective_call _) (f_equal _ Ha))).
  unfold trace at 1. simpl. f_equal.
  destruct (RSSChannel.Items (RSS.Channel rss)) as [|it items];
    unfold go, bind, ret, trace; simpl;
    destruct (RSS_Serve (RegisterRSSUpdateNotifier rss f) ttl events) as [tr [r|p]];
    simpl; try reflexivity; now rewrite app_nil_r.
Qed.

Lemma Serve_acquire_fresh env source rss :
  result (Serve_acquire env source) = Done (inl rss) ->
  RSS.rssUpdateNotifiers rss = [].
Proof.
  rewrite result_Serve_acquire, result_reacquire.
  destruct (slice_to source 4); [|discriminate].
  intros [= H]. destruct (fetch env source) as [b|e]; [|discriminate H].
  now destruct (parsed_inv _ _ _ _ H) as (_ & _ & _ & Hn & _).
Qed.

(** X12.  The notifier handed to the package-level [Serve] is the only
    one registered: it is started once on the initial items and, on a
    first tick that finds new items, once more on exactly those. *)
Theorem Serve_notifies_registered env source f ttl rss env1 rss' newItems :
  result (Serve_acquire env source) = Done (inl rss) ->
  0 < Serve_interval ttl rss ->
  result (Update env1 (RegisterRSSUpdateNotifier rss f)) = Done (rss', inl newItems) ->
  newItems <> [] ->
  started (trace (Serve env source f ttl [Tick env1]))
  = [(f, RSSChannel.Items (RSS.Channel rss)); (f, newItems)].
Proof.
  intros Ha Hi HU Hn.
  rewrite (Serve_trace _ _ _ _ _ _ Ha), !started_app, Serve_acquire_starts_nothing.
  assert (RSS_Serve (RegisterRSSUpdateNotifier rss f) ttl [Tick env1]
          = serveLoop (RegisterRSSUpdateNotifier rss f) [Tick env1]) as ->.
  { unfold RSS_Serve.
    change (Serve_interval ttl (RegisterRSSUpdateNotifier rss f))
      with (Serve_interval ttl rss).
    destruct (Z.leb_spec (Serve_interval ttl rss) 0); [lia|reflexivity]. }
  rewrite (tick_started _ _ _ _ HU).
  destruct newItems as [|n newItems]; [contradiction|].
  unfold RegisterRSSUpdateNotifier at 1. simpl RSS.rssUpdateNotifiers.
  rewrite (Serve_acquire_fresh _ _ _ Ha). simpl.
  destruct (RSSChannel.Items (RSS.Channel rss)) as [|it items] eqn:E; [|reflexivity].
  rewrite result_Update in HU. unfold latestItem in HU. simpl in HU. rewrite E in HU.
  destruct (String.eqb (RSS.source rss) ""); [discriminate HU|].
  destruct (result (reacquire env1 (RSS.source rss))) as [[rss2|e]|p]; discriminate HU.
Qed.

Lemma Serve_notifies_registered_witness :
  started (trace (Serve (Sample.world Sample.doc_newer (RSS.Channel Sample.feed_dated))
                    "feed.xml" 7%nat 0 [Tick Sample.world_newer]))
  = [(7%nat, RSSChannel.Items (RSS.Channel Sample.feed_dated));
     (7%nat, [Sample.item "fresh" (Some Sample.T1)])].
Proof.
  apply (Serve_notifies_registered
           (Sample.world Sample.doc_newer (RSS.Channel Sample.feed_dated))
           "feed.xml" 7%nat 0
           (RSS.mk "2.0" (RSS.Channel Sample.feed_dated) Sample.doc_newer "feed.xml"
              Sample.noon [])
           Sample.world_newer
           (replace_items Sample.world_newer
              (RSS.mk "2.0" (RSS.Channel Sample.feed_dated) Sample.doc_newer "feed.xml"
                 Sample.noon [7%nat])
              Sample.feed_newer)
           [Sample.item "fresh" (Some Sample.T1)]);
    [vm_compute; reflexivity|reflexivity|vm_compute; reflexivity|discriminate].
Defined.

(** ** What a failed update writes *)

Lemma logTrace_silent env v : LogLevel env <> Ltrace -> logTrace env v = ([], Done tt).
Proof. intros H. unfold logTrace. now destruct (Z.eqb_spec (LogLevel env) Ltrace). Qed.

Lemma trace_Feed env b :
  LogLevel env <> Ltrace -> LogLevel env <= Lerror ->
  trace (Feed env b)
  = match Decode env b with
    | inl _ => []
    | inr err => [error_line err]
    end.
Proof.
  intros Ht He. unfold Feed. rewrite (logTrace_silent _ _ Ht).
  destruct (Decode env b) as [[version ch]|err]; [reflexivity|].
  now rewrite (logErr_writes _ _ He).
Qed.

Lemma trace_then_ret {A B : Type} (m : M A) (b : B) :
  trace (m ;;; ret b) = trace m.
Proof.
  destruct m as [tr [a|p]]; unfold trace, bind, ret; simpl; [apply app_nil_r|reflexivity].
Qed.

Lemma trace_reacquire env source :
  LogLevel env <> Ltrace -> LogLevel env <= Lerror ->
  (4 <= String.length source)%nat ->
  trace (reacquire env source)
  = match fetch env source with
    | inr err => [error_line err; error_line err]
    | inl b =>
        match Decode env b with
        | inl _ => []
        | inr err => [error_line err; error_line err; error_line err]
        end
    end.
Proof.
  intros Ht He Hl. unfold reacquire.
  rewrite trace_bind, (slice_to_long _ _ Hl).
  unfold result at 1, trace at 1, lift, fst, snd. rewrite app_nil_l, slice_http.
  unfold fetch. destruct (prefix "http" source).
  - rewrite trace_bind, result_FeedFromURL. unfold FeedFromURL.
    destruct (Get env source) as [[b|err]|err].
    + rewrite trace_bind, result_Feed, (parsed_source env b source), (trace_Feed _ _ Ht He).
      unfold parsed. destruct (Decode env b) as [[version ch]|err]; [reflexivity|].
      rewrite !trace_then_ret, !(logErr_writes _ _ He). reflexivity.
    + rewrite !trace_then_ret, !(logErr_writes _ _ He). reflexivity.
    + rewrite !trace_then_ret, !(logErr_writes _ _ He). reflexivity.
  - rewrite trace_bind, result_FeedFromFile. unfold FeedFromFile.
    destruct (ReadFile env source) as [b|err].
    + rewrite trace_bind, result_Feed, (parsed_source env b source), (trace_Feed _ _ Ht He).
      unfold parsed. destruct (Decode env b) as [[version ch]|err]; [reflexivity|].
      rewrite !trace_then_ret, !(logErr_writes _ _ He). reflexivity.
    + rewrite !trace_then_ret, !(logErr_writes _ _ He). reflexivity.
Qed.

(** X13.  At a log level that shows errors but no traces, an [Update]
    whose transport fails writes the error twice (the acquisition
    function and [Update] each log it), one whose document does not
    decode writes it three times ([Feed] logs it too), and one whose
    acquisition succeeds writes nothing. *)
Theorem Update_logs_each_layer env rss r :
  LogLevel env <> Ltrace -> LogLevel env <= Lerror ->
  latestItem rss = Done r ->
  (4 <= String.length (RSS.source rss))%nat ->
  trace (Update env rss)
  = match fetch env (RSS.source rss) with
    | inr err => [error_line err; error_line err]
    | inl b =>
        match Decode env b with
        | inl _ => []
        | inr err => [error_line err; error_line err; error_line err]
        end
    end.
Proof.
  intros Ht He Hl Hlen. unfold Update.
  rewrite trace_bind, result_logTrace, (logTrace_silent _ _ Ht).
  unfold trace at 1, fst. rewrite app_nil_l, trace_bind, Hl.
  unfold result at 1, trace at 1, lift, fst, snd. rewrite app_nil_l.
  destruct (String.eqb_spec (RSS.source rss) "") as [E|_].
  { rewrite E in Hlen. simpl in Hlen. lia. }
  rewrite trace_bind, (trace_reacquire _ _ Ht He Hlen), result_reacquire,
    (slice_to_long _ _ Hlen).
  destruct (fetch env (RSS.source rss)) as [b|err]; [|reflexivity].
  unfold parsed. destruct (Decode env b) as [[version ch]|err]; [|reflexivity].
  destruct r as [l|]; [|reflexivity].
  rewrite trace_bind. unfold result at 1, trace at 1, lift, fst, snd.
  now destruct (newer_items l _ []).
Qed.

Lemma Update_logs_each_layer_witness :
  trace (Update Sample.offline Sample.feed_dated)
  = [error_line "open feed.xml: no such file or directory";
     error_line "open feed.xml: no such file or directory"].
Proof.
  apply (Update_logs_each_layer Sample.offline Sample.feed_dated
           (Some (Sample.item "old" (Some Sample.T0))));
    [discriminate|discriminate|reflexivity|simpl; lia].
Defined.

(** ** What parsing removes and what it keeps *)

Lemma string_app_assoc (a b c : string) : (a ++ b) ++ c = a ++ (b ++ c).
Proof. induction a as [|x a IH]; simpl; [reflexivity|now rewrite IH]. Qed.

Lemma string_app_nil_r (a : string) : a ++ "" = a.
Proof. induction a as [|x a IH]; simpl; [reflexivity|now rewrite IH]. Qed.

Lemma TrimLeft_strips s cs :
  exists l,
    s = l ++ TrimLeft s cs /\
    forall c, In c (list_ascii_of_string l) -> in_cutset c cs = true.
Proof.
  induction s as [|a s (l & Hs & Hl)]; simpl.
  - exists "". split; [reflexivity|]. intros c [].
  - destruct (in_cutset a cs) eqn:E.
    + exists (String a l). split; [simpl; now rewrite <- Hs|].
      intros c [<-|Hc]; [exact E|now apply Hl].
    + exists "". split; [reflexivity|]. intros c [].
Qed.

Lemma TrimRight_strips s cs :
  exists r,
    s = TrimRight s cs ++ r /\
    forall c, In c (list_ascii_of_string r) -> in_cutset c cs = true.
Proof.
  induction s as [|a s (r & Hs & Hr)]; simpl.
  - exists "". split; [reflexivity|]. intros c [].
  - destruct (TrimRight s cs) as [|b t] eqn:E.
    + simpl in Hs. destruct (in_cutset a cs) eqn:Ea.
      * exists (String a r). split; [simpl; now rewrite <- Hs|].
        intros c [<-|Hc]; [exact Ea|now apply Hr].
      * exists r. split; [simpl; now rewrite <- Hs|exact Hr].
    + exists r. split; [simpl; now rewrite Hs|exact Hr].
Qed.

Lemma Trim_strips s : strips s (Trim s cutset).
Proof.
  unfold Trim. destruct (TrimRight_strips s cutset) as (r & Hs & Hr).
  destruct (TrimLeft_strips (TrimRight s cutset) cutset) as (l & Ht & Hl).
  exists l, r. split; [|split; assumption].
  rewrite <- string_app_assoc, <- Ht. exact Hs.
Qed.

Lemma trim_item_keeps it :
  RSSItem.with_Title (RSSItem.Title it)
    (RSSItem.with_Description (RSSItem.Description it) (trim_item it)) = it.
Proof. now destruct it. Qed.

Lemma trim_channel_keeps ch :
  RSSChannel.with_Title (RSSChannel.Title ch)
    (RSSChannel.with_Description (RSSChannel.Description ch)
       (RSSChannel.with_Copyright (RSSChannel.Copyright ch)
          (RSSChannel.with_Items (RSSChannel.Items ch) (trim_channel ch)))) = ch.
Proof. now destruct ch. Qed.

(** X14.  Parsing removes cutset bytes at the two ends of the trimmed
    fields and nothing else: on a document the decoder accepts, [Feed]
    succeeds; the title, description and copyright of the channel and the
    title and description of each item are the decoded ones without a
    leading and a trailing run of space, tab or newline; the items keep
    their number and order, and every other field of the channel and of
    the items is the decoded one. *)
Theorem Feed_only_strips env b version ch :
  Decode env b = inl (version, ch) ->
  exists rss,
    result (Feed env b) = Done (inl rss) /\
    RSS.Version rss = version /\ RSS.origin rss = b /\
    strips (RSSChannel.Title ch) (RSSChannel.Title (RSS.Channel rss)) /\
    strips (RSSChannel.Description ch) (RSSChannel.Description (RSS.Channel rss)) /\
    strips (RSSChannel.Copyright ch) (RSSChannel.Copyright (RSS.Channel rss)) /\
    Forall2 (fun it it' =>
               strips (RSSItem.Title it) (RSSItem.Title it') /\
               strips (RSSItem.Description it) (RSSItem.Description it') /\
               RSSItem.with_Title (RSSItem.Title it)
                 (RSSItem.with_Description (RSSItem.Description it) it') = it)
            (RSSChannel.Items ch) (RSSChannel.Items (RSS.Channel rss)) /\
    RSSChannel.with_Title (RSSChannel.Title ch)
      (RSSChannel.with_Description (RSSChannel.Description ch)
         (RSSChannel.with_Copyright (RSSChannel.Copyright ch)
            (RSSChannel.with_Items (RSSChannel.Items ch) (RSS.Channel rss)))) = ch.
Proof.
  intros H. exists (RSS.mk version (trim_channel ch) b "" (Now env) []).
  split; [rewrite result_Feed; unfold parsed; now rewrite H|].
  split; [reflexivity|]. split; [reflexivity|]. simpl.
  split; [apply Trim_strips|]. split; [apply Trim_strips|].
  split; [apply Trim_strips|]. split; [|apply trim_channel_keeps].
  induction (RSSChannel.Items ch) as [|it items IH]; simpl; constructor; [|exact IH].
  split; [apply Trim_strips|]. split; [apply Trim_strips|apply trim_item_keeps].
Qed.

Lemma Feed_only_strips_witness :
  exists rss,
    result (Feed Sample.world_padded Sample.doc_padded) = Done (inl rss) /\
    strips " t " (RSSChannel.Title (RSS.Channel rss)) /\
    RSSChannel.Link (RSS.Channel rss) = " http://example.org/ ".
Proof.
  destruct (Feed_only_strips Sample.world_padded Sample.doc_padded "2.0"
              (RSSChannel.with_Description " d "
                 (Sample.channel " t " " http://example.org/ " 0 [])) eq_refl)
    as (rss & H & _ & _ & Ht & _ & _ & _ & Hk).
  exists rss. split; [exact H|]. split; [exact Ht|].
  exact (f_equal RSSChannel.Link Hk).
Defined.

Lemma TrimLeft_fixed t cs :
  (forall c, first_byte t = Some c -> in_cutset c cs = false) -> TrimLeft t cs = t.
Proof. destruct t as [|a t]; simpl; [reflexivity|]. intros H. now rewrite (H a eq_refl). Qed.

Lemma TrimRight_fixed t cs :
  (forall c, last_byte t = Some c -> in_cutset c cs = false) -> TrimRight t cs = t.
Proof.
  induction t as [|a t IH]; simpl; [reflexivity|]. intros H.
  destruct t as [|b t].
  - simpl. now rewrite (H a eq_refl).
  - rewrite (IH H). reflexivity.
Qed.

Lemma Trim_fixed t : trimmed t -> Trim t cutset = t.
Proof.
  intros [Hf Hl]. unfold Trim.
  rewrite (TrimRight_fixed _ _ Hl). apply (TrimLeft_fixed _ _ Hf).
Qed.

Lemma Trim_idempotent s : Trim (Trim s cutset) cutset = Trim s cutset.
Proof. apply Trim_fixed, Trim_trimmed. Qed.

Lemma trim_item_idempotent it : trim_item (trim_item it) = trim_item it.
Proof.
  destruct it as [title link description author categories comments enclosure guid
                    pubDate source].
  change (RSSItem.mk (Trim (Trim title cutset) cutset) link
            (Trim (Trim description cutset) cutset) author categories comments
            enclosure guid pubDate source
          = RSSItem.mk (Trim title cutset) link (Trim description cutset) author
              categories comments enclosure guid pubDate source).
  now rewrite (Trim_idempotent title), (Trim_idempotent description).
Qed.

Lemma trim_channel_idempotent ch : trim_channel (trim_channel ch) = trim_channel ch.
Proof.
  destruct ch as [title link description language copyright managingEditor webMaster
                    pubDate lastBuildDate categories generator docs cloud ttl image
                    rating textInput skipHours skipDays items].
  change (RSSChannel.mk (Trim (Trim title cutset) cutset) link
            (Trim (Trim description cutset) cutset) language
            (Trim (Trim copyright cutset) cutset) managingEditor webMaster pubDate
            lastBuildDate categories generator docs cloud ttl image rating textInput
            skipHours skipDays (map trim_item (map trim_item items))
          = RSSChannel.mk (Trim title cutset) link (Trim description cutset) language
              (Trim copyright cutset) managingEditor webMaster pubDate lastBuildDate
              categories generator docs cloud ttl image rating textInput skipHours
              skipDays (map trim_item items)).
  rewrite (Trim_idempotent title), (Trim_idempotent description),
    (Trim_idempotent copyright), map_map.
  f_equal. apply map_ext. exact trim_item_idempotent.
Qed.

(** X15.  Parsing is stable on what it produced: when a document decodes
    to the channel of a feed that [Feed] built, [Feed] returns that
    channel unchanged. *)
Theorem Feed_stable_on_parsed env0 b0 rss0 env b version :
  result (Feed env0 b0) = Done (inl rss0) ->
  Decode env b = inl (version, RSS.Channel rss0) ->
  exists rss,
    result (Feed env b) = Done (inl rss) /\ RSS.Channel rss = RSS.Channel rss0.
Proof.
  intros H0 Hd. rewrite result_Feed in H0. injection H0 as H0.
  destruct (parsed_inv _ _ _ _ H0) as (_ & _ & _ & _ & v0 & ch0 & _ & _ & Hc).
  exists (RSS.mk version (trim_channel (RSS.Channel rss0)) b "" (Now env) []).
  split; [rewrite result_Feed; unfold parsed; now rewrite Hd|].
  simpl. rewrite Hc. apply trim_channel_idempotent.
Qed.

Lemma Feed_stable_on_parsed_witness :
  exists rss0 rss,
    result (Feed Sample.world_padded Sample.doc_padded) = Done (inl rss0) /\
    result (Feed (Sample.world "again" (RSS.Channel rss0)) "again") = Done (inl rss) /\
    RSS.Channel rss = RSS.Channel rss0.
Proof.
  eexists. 
  destruct (Feed_stable_on_parsed Sample.world_padded Sample.doc_padded _
              (Sample.world "again" _) "again" "2.0" eq_refl eq_refl)
    as (rss & H & Hc).
  exists rss. split; [reflexivity|]. split; [exact H|exact Hc].
Defined.

(** ** The loggers *)

Lemma writes_output line : writes (output line).
Proof. discriminate. Qed.

Lemma silent_ret : ~ writes (ret tt).
Proof. intros H. now apply H. Qed.

Lemma writes_if (b : bool) line :
  writes (if b then output line else ret tt) <-> b = true.
Proof.
  destruct b; split; try reflexivity.
  - intros _. apply writes_output.
  - intros C. exfalso. exact (silent_ret C).
  - discriminate.
Qed.

(** X16.  The loggers are ordered by severity: whenever the trace logger
    writes, the debug logger writes; whenever debug writes, warn writes;
    whenever warn writes, err writes.  The info loggers are no level of
    their own: they write exactly when the debug logger does and tag the
    line [DEBUG], so at [LogLevel = Linfo] an info message is dropped
    while warnings and errors are shown. *)
Theorem logger_severity env v vs :
  (writes (logTrace env v) -> writes (logDebug env v)) /\
  (writes (logDebug env v) -> writes (logWarn env v)) /\
  (writes (logWarn env v) -> writes (logErr env v)) /\
  (writes (logTraceln env vs) -> writes (logDebugln env vs)) /\
  (writes (logDebugln env vs) -> writes (logWarnln env vs)) /\
  (writes (logWarnln env vs) -> writes (logErrln env vs)) /\
  logInfo env v = logDebug env v /\
  logInfoln env vs = logDebugln env vs /\
  (LogLevel env = Linfo ->
   ~ writes (logInfo env v) /\ ~ writes (logInfoln env vs) /\
   writes (logWarn env v) /\ writes (logErr env v)).
Proof.
  unfold logTrace, logDebug, logWarn, logErr, logTraceln, logDebugln, logWarnln,
    logErrln, logInfo, logInfoln, Ltrace, Ldebug, Linfo, Lwarning, Lerror.
  rewrite !writes_if, !Z.eqb_eq, !Z.leb_le.
  split; [lia|]. split; [lia|]. split; [lia|].
  split; [lia|]. split; [lia|]. split; [lia|].
  split; [reflexivity|]. split; [reflexivity|].
  intros H. lia.
Qed.

Lemma logger_severity_witness :
  writes (logDebug (mkEnv Ltrace Sample.noon (ReadFile Sample.offline)
                      (Get Sample.offline) (Decode Sample.offline)) "feed()").
Proof.
  apply (proj1 (logger_severity
                  (mkEnv Ltrace Sample.noon (ReadFile Sample.offline)
                     (Get Sample.offline) (Decode Sample.offline)) "feed()" [])).
  discriminate.
Defined.

(** ** The String methods *)

Lemma RSSItem_String_dated rfc3339 it :
  (RSSItem.PubDate it = None ->
   RSSItem_String rfc3339 it = Panicked NilDereference) /\
  (RSSItem.PubDate it <> None -> exists text, RSSItem_String rfc3339 it = Done text).
Proof.
  unfold RSSItem_String. split.
  - intros ->. reflexivity.
  - intros H. destruct (RSSItem.PubDate it) as [d|]; [|contradiction]. simpl.
    destruct (Time.Equal d zeroTime); eexists; reflexivity.
Qed.

(** X17.  [RSSItem.String] needs a publish date: on an item without
    [pubDate] it dereferences the nil pointer and panics, whatever the
    other fields hold; on an item with one it returns a string. *)
Theorem RSSItem_String_needs_date rfc3339 it :
  (RSSItem.PubDate it = None ->
   RSSItem_String rfc3339 it = Panicked NilDereference) /\
  (RSSItem.PubDate it <> None -> exists text, RSSItem_String rfc3339 it = Done text).
Proof. exact (RSSItem_String_dated rfc3339 it). Qed.

Lemma RSSItem_String_needs_date_witness :
  RSSItem_String (fun _ => "2018-05-11T08:28:39Z") (Sample.item "undated" None)
  = Panicked NilDereference /\
  RSSItem_String (fun _ => "2018-05-11T08:28:39Z") (Sample.item "old" (Some Sample.T0))
  = Done ("Title: " ++ quoted "old" ++ ", PubDate: 2018-05-11T08:28:39Z").
Proof.
  split.
  - apply (proj1 (RSSItem_String_needs_date (fun _ => "2018-05-11T08:28:39Z")
                    (Sample.item "undated" None))).
    reflexivity.
  - reflexivity.
Defined.

Lemma items_strings_completes rfc3339 items : forall b,
  (exists texts, items_strings rfc3339 items b = Done texts) <-> Forall dated items.
Proof.
  induction items as [|it items IH]; intros b; simpl.
  - split; [constructor|]. intros _. now exists b.
  - destruct (RSSItem_String_dated rfc3339 it) as [Hn Hd].
    destruct (RSSItem.PubDate it) as [d|] eqn:E.
    + destruct (Hd ltac:(discriminate)) as [text ->]. simpl. rewrite IH.
      split; [intros H; constructor; [unfold dated; now rewrite E|exact H]|].
      intros H. now inversion H.
    + rewrite (Hn eq_refl). simpl. split; [intros [texts H]; discriminate H|].
      intros H. inversion H as [|? ? Hit _]. unfold dated in Hit. now rewrite E in Hit.
Qed.

Lemma append_date_completes rfc3339 label d a :
  (exists a', append_date rfc3339 label d a = Done a') <-> d <> None.
Proof.
  unfold append_date. destruct d as [t|]; simpl.
  - split; [discriminate|]. intros _. destruct (Time.Equal t zeroTime); eexists; reflexivity.
  - split; [intros [a' H]; discriminate H|]. intros H. now contradiction H.
Qed.

(** X18.  [RSS.String] returns exactly on the feeds whose channel carries
    both a publish date and a last-build date and whose items are all
    dated; on any other feed it panics. *)
Theorem RSS_String_completes_iff rfc3339 rss :
  (exists text, RSS_String rfc3339 rss = Done text) <->
  RSSChannel.PubDate (RSS.Channel rss) <> None /\
  RSSChannel.LastBuildDate (RSS.Channel rss) <> None /\
  Forall dated (RSSChannel.Items (RSS.Channel rss)).
Proof.
  unfold RSS_String, RSSChannel_String.
  set (c := RSS.Channel rss).
  pose proof (append_date_completes rfc3339 "PubDate: " (RSSChannel.PubDate c)
                (RSSChannel_String_head c)) as H1.
  destruct (append_date rfc3339 "PubDate: " (RSSChannel.PubDate c)
              (RSSChannel_String_head c)) as [a1|p1]; simpl.
  2:{ split; [intros [t H]; discriminate H|]. intros (H & _).
      destruct (proj2 H1 H) as [a' C]. discriminate C. }
  pose proof (append_date_completes rfc3339 "LastBuildDate: "
                (RSSChannel.LastBuildDate c) a1) as H2.
  destruct (append_date rfc3339 "LastBuildDate: " (RSSChannel.LastBuildDate c) a1)
    as [a2|p2]; simpl.
  2:{ split; [intros [t H]; discriminate H|]. intros (_ & H & _).
      destruct (proj2 H2 H) as [a' C]. discriminate C. }
  pose proof (items_strings_completes rfc3339 (RSSChannel.Items c) []) as H3.
  destruct (RSSChannel.Items c) as [|it items] eqn:E.
  - split; [|intros _; eexists; reflexivity].
    intros _. split; [apply H1; now exists a1|]. split; [apply H2; now exists a2|].
    constructor.
  - destruct (items_strings rfc3339 (it :: items) []) as [texts|p3]; simpl.
    + split; [|intros _; eexists; reflexivity].
      intros _. split; [apply H1; now exists a1|]. split; [apply H2; now exists a2|].
      apply H3. now exists texts.
    + split; [intros [t H]; discriminate H|]. intros (_ & _ & H).
      destruct (proj2 H3 H) as [texts C]. discriminate C.
Qed.

Example RSS_String_sample_panics :
  RSS_String (fun _ => "2018-05-11T08:45:56Z")
    (RSS.mk "2.0"
       (RSSChannel.mk "Solidot" "https://www.solidot.org" "d" "zh-cn" "" "" "" None
          (Some (Time.mk 1526028356 0)) [] "" "" None 20 None "" None [] []
          [Sample.item "old" (Some Sample.T0)])
       "" "" Sample.noon [])
  = Panicked NilDereference.
Proof. reflexivity. Qed.

Example decimal_samples :
  decimal 0 = "0" /\ decimal 80 = "80" /\ decimal (-5) = "-5".
Proof. repeat split. Qed.

Example rune_string_samples :
  rune_string 60 = "<" /\ String.length (rune_string 233) = 2%nat /\
  String.length (rune_string 26368) = 3%nat /\ rune_string (-1) = rune_string 65533.
Proof. repeat split. Qed.

Lemma In_append_str y a x : In y a -> In y (append_str a x).
Proof. intros H. unfold append_str. apply in_or_app. now left. Qed.

Lemma In_append_str_last a x : In x (append_str a x).
Proof. unfold append_str. apply in_or_app. right. now left. Qed.

Lemma rune_not_decimal_below n :
  (0 < n < 128)%nat ->
  rune_string (Z.of_nat n) = byte_string (Z.of_nat n) /\
  rune_string (Z.of_nat n) <> decimal (Z.of_nat n).
Proof.
  intros H.
  assert (forallb (fun k =>
            String.eqb (rune_string (Z.of_nat k)) (byte_string (Z.of_nat k))
            && negb (String.eqb (rune_string (Z.of_nat k)) (decimal (Z.of_nat k))))
            (seq 1 127) = true) as A by (vm_compute; reflexivity).
  rewrite forallb_forall in A.
  assert (In n (seq 1 127)) as Hin by (apply in_seq; lia).
  specialize (A n Hin).
  apply andb_true_iff in A. destruct A as [A1 A2].
  apply String.eqb_eq in A1. split; [exact A1|].
  intros C. rewrite C, String.eqb_refl in A2. discriminate A2.
Qed.

(** X19.  [RSSChannel.String] converts the TTL with [string(c.TTL)]: a
    TTL from 1 to 127 is rendered as the single byte with that code, which
    is never the TTL in decimal digits. *)
Theorem RSSChannel_String_TTL_is_a_byte c a :
  0 < RSSChannel.TTL c < 128 ->
  In ("TTL: " ++ byte_string (RSSChannel.TTL c)) (RSSChannel_String_middle c a) /\
  byte_string (RSSChannel.TTL c) <> decimal (RSSChannel.TTL c).
Proof.
  intros H.
  destruct (rune_not_decimal_below (Z.to_nat (RSSChannel.TTL c)) ltac:(lia)) as [Hb Hd].
  rewrite Z2Nat.id in Hb, Hd by lia. rewrite Hb in Hd. split; [|exact Hd].
  unfold RSSChannel_String_middle.
  destruct (Z.eqb_spec (RSSChannel.TTL c) 0) as [E|_]; [lia|]. simpl negb. cbv iota.
  rewrite Hb.
  repeat first
    [ apply In_append_str_last
    | apply In_append_str
    | match goal with
      | |- In _ (if ?b then _ else _) => destruct b
      | |- In _ (match ?x with _ => _ end) => destruct x
      end ].
Qed.

Lemma RSSChannel_String_TTL_is_a_byte_witness :
  In ("TTL: " ++ byte_string 20)
     (RSSChannel_String_middle (RSS.Channel Sample.feed_dated) []) /\
  byte_string 20 <> "20".
Proof.
  apply (RSSChannel_String_TTL_is_a_byte (RSS.Channel Sample.feed_dated) []).
  simpl. lia.
Defined.

(** ** The earlier revision, continued *)

(** X20.  In the earlier revision [Update] never writes to the feed it
    is called on: the feed after the call is the feed before it, so in
    an unchanged world the next [Update] reports the same new items
    again. *)
Theorem Earlier_Update_reports_again env rss rss' r :
  result (Earlier.Update env rss) = Done (rss', r) ->
  rss' = rss /\ result (Earlier.Update env rss') = Done (rss', r).
Proof.
  intros H. pose proof (Earlier_Update_keeps_feed _ _ _ _ H) as ->.
  split; [reflexivity|exact H].
Qed.

Lemma Earlier_Update_reports_again_witness :
  result (Earlier.Update Sample.world_newer Sample.feed_dated)
  = Done (Sample.feed_dated, inl [Sample.item "fresh" (Some Sample.T1)]) /\
  result (Earlier.Update Sample.world_newer Sample.feed_dated)
  = Done (Sample.feed_dated, inl [Sample.item "fresh" (Some Sample.T1)]).
Proof.
  split; [vm_compute; reflexivity|].
  apply (proj2 (Earlier_Update_reports_again Sample.world_newer Sample.feed_dated
                  Sample.feed_dated (inl [Sample.item "fresh" (Some Sample.T1)])
                  ltac:(vm_compute; reflexivity))).
Defined.

(** X21.  In the earlier revision [Update] on a feed without items
    panics, index out of range, before it looks at the source or acquires
    anything; the current revision returns no new items there. *)
Theorem Earlier_Update_empty_feed_panics env rss :
  RSSChannel.Items (RSS.Channel rss) = [] ->
  result (Earlier.Update env rss) = Panicked (IndexRange 0 0) /\
  latestItem rss = Done None.
Proof.
  intros H. split.
  - unfold Earlier.Update.
    rewrite result_bind, result_logTrace, result_bind.
    unfold result at 1, lift, snd. now rewrite (Earlier_latestItem_empty _ H).
  - unfold latestItem. now rewrite H.
Qed.

Lemma Earlier_Update_empty_feed_panics_witness :
  result (Earlier.Update Sample.world_newer Sample.feed_empty)
  = Panicked (IndexRange 0 0).
Proof.
  apply (proj1 (Earlier_Update_empty_feed_panics Sample.world_newer Sample.feed_empty
                  eq_refl)).
Defined.

(** ** What Update reports *)

(** X22.  With a dated latest item and dated fresh items, [Update]
    reports exactly the fresh items published strictly after the latest
    item, in document order; an item of the same instant is left out. *)
Theorem Update_reports_exactly_newer env rss l T0 rss2 :
  latestItem rss = Done (Some l) ->
  RSSItem.PubDate l = Some T0 ->
  RSS.source rss <> "" ->
  result (reacquire env (RSS.source rss)) = Done (inl rss2) ->
  Forall dated (RSSChannel.Items (RSS.Channel rss2)) ->
  result (Update env rss)
  = Done (replace_items env rss rss2,
          inl (filter (newer_than T0) (RSSChannel.Items (RSS.Channel rss2)))).
Proof. exact (Update_reports_newer env rss l T0 rss2). Qed.

Lemma Update_reports_exactly_newer_witness :
  result (Update Sample.world_newer Sample.feed_dated)
  = Done (Sample.feed_updated, inl [Sample.item "fresh" (Some Sample.T1)]).
Proof.
  apply (Update_reports_exactly_newer Sample.world_newer Sample.feed_dated
           (Sample.item "old" (Some Sample.T0)) Sample.T0 Sample.feed_newer).
  - reflexivity.
  - reflexivity.
  - discriminate.
  - vm_compute. reflexivity.
  - repeat constructor; discriminate.
Defined.




Lemma newer_items_sound l items : forall acc newItems x,
  newer_items l items acc = Done newItems ->
  In x newItems ->
  In x acc \/ (In x items /\
               RFC822_After (RSSItem.PubDate x) (RSSItem.PubDate l) = Done true).
Proof.
  induction items as [|it items IH]; intros acc newItems x H Hx; simpl in H.
  - injection H as <-. now left.
  - destruct (RFC822_After (RSSItem.PubDate it) (RSSItem.PubDate l)) as [[|]|p] eqn:E;
      [| |discriminate H].
    + destruct (IH _ _ _ H Hx) as [Ha|[Hi Hafter]].
      * apply in_app_or in Ha. destruct Ha as [Ha|[<-|[]]]; [now left|].
        right. split; [now left|exact E].
      * right. split; [now right|exact Hafter].
    + destruct (IH _ _ _ H Hx) as [Ha|[Hi Hafter]]; [now left|].
      right. split; [now right|exact Hafter].
Qed.

(** X24.  [Update] never reports an item the feed already holds: every
    item it returns comes from the fresh document and is published
    strictly after every dated item the feed had before the call. *)
Theorem Update_never_reports_held_item env rss rss' newItems x :
  result (Update env rss) = Done (rss', inl newItems) ->
  In x newItems ->
  In x (RSSChannel.Items (RSS.Channel rss')) /\
  ~ In x (RSSChannel.Items (RSS.Channel rss)) /\
  exists dx,
    RSSItem.PubDate x = Some dx /\
    forall it d,
      In it (RSSChannel.Items (RSS.Channel rss)) -> RSSItem.PubDate it = Some d ->
      Time.After dx d = true.
Proof.
  rewrite result_Update.
  destruct (latestItem rss) as [[l|]|p] eqn:Hl; [| |discriminate].
  2:{ destruct (String.eqb (RSS.source rss) ""); [discriminate|].
      destruct (result (reacquire env (RSS.source rss))) as [[rss2|e]|p];
        [|discriminate|discriminate].
      intros [= <- <-] []. }
  destruct (String.eqb (RSS.source rss) ""); [discriminate|].
  destruct (result (reacquire env (RSS.source rss))) as [[rss2|e]|p];
    [|discriminate|discriminate].
  destruct (newer_items l (RSSChannel.Items (RSS.Channel rss2)) []) as [n|p] eqn:Hn;
    [|discriminate].
  intros [= <- <-] Hx.
  destruct (newer_items_sound _ _ _ _ _ Hn Hx) as [[]|[Hi Ha]].
  destruct (RSSItem.PubDate x) as [dx|] eqn:Hdx; [|discriminate Ha].
  destruct (RSSItem.PubDate l) as [dl|] eqn:Hdl; [|discriminate Ha].
  injection Ha as Ha.
  unfold latestItem in Hl.
  destruct (RSSChannel.Items (RSS.Channel rss)) as [|it0 rest] eqn:E; [discriminate|].
  destruct (latestItem_from it0 rest) as [l'|p] eqn:Hf; [|discriminate].
  injection Hl as ->.
  destruct (latestItem_from_spec _ _ _ Hf) as (_ & Hmono & Hrest).
  assert (forall it, In it (it0 :: rest) -> not_after l it) as Hmax.
  { intros it [<-|Hit]; [apply Hmono, not_after_refl|now apply Hrest]. }
  split; [exact Hi|]. split.
  - intros C. pose proof (Hmax x C dx dl Hdx Hdl). congruence.
  - exists dx. split; [reflexivity|]. intros it d Hit Hd.
    pose proof (Hmax it Hit d dl Hd Hdl) as Hle.
    apply After_spec in Ha. apply After_spec.
    destruct (Time.After d dl) eqn:C; [discriminate|].
    destruct (Z.lt_trichotomy (Time.unixSec d) (Time.unixSec dx)) as [L|[Eq|G]].
    + now left.
    + right. split; [now symmetry|].
      destruct (Z.lt_ge_cases (Time.nsec d) (Time.nsec dx)) as [L|G]; [exact L|].
      exfalso. assert (Time.After d dl = true); [|congruence].
      apply After_spec. lia.
    + exfalso. assert (Time.After d dl = true); [|congruence].
      apply After_spec. lia.
Qed.

Lemma Update_never_reports_held_item_witness :
  ~ In (Sample.item "fresh" (Some Sample.T1))
       (RSSChannel.Items (RSS.Channel Sample.feed_dated)).
Proof.
  apply (Update_never_reports_held_item Sample.world_newer Sample.feed_dated
           Sample.feed_updated [Sample.item "fresh" (Some Sample.T1)]
           (Sample.item "fresh" (Some Sample.T1))).
  - vm_compute. reflexivity.
  - now left.
Defined.
